(** * Physics tutor: the retrieval module [rag_utils.py]

    A shallow embedding of [RAGKnowledgeBase]: the corpus loader
    ([load_knowledge_base], [_create_sample_knowledge_base]), the relevance
    scorer and ranker ([similarity_score], [search_relevant_chunks]), the
    context assembler ([get_context_for_query]) and [get_chapter_topics].

    Python values are modelled as the code uses them:
    - a [str] is a sequence of Unicode code points ([pystr]), so [len] counts
      code points;
    - a [float] is an IEEE 754 binary64 number, computed bit for bit with the
      operations of [SpecFloat] at precision 53 and maximal exponent 1024;
    - an [int] is a [Z];
    - a chunk is a [dict] from field names to strings, in insertion order;
    - exceptions are explicit results ([Ok] / [Raise]).

    What Python's runtime supplies and the module only calls ([str.lower],
    the regular expression class [\w], [difflib]'s matching blocks and the
    iteration order of a [set]) is an interface, [PyRuntime], with the laws
    the proofs rely on; [ascii_runtime] is an executable instance of it.

    The tutor's side follows: how [GeminiAI] of [gemini_utils.py] sets up
    and consults the knowledge base, its fallback quiz
    ([_fallback_physics_questions]), what [generate_quiz_questions] makes of
    the model's answer, [get_focus_areas], and [format_study_time] of
    [utils.py].  There an exception is [None] in an [option]. *)

From Stdlib Require Import String Ascii.
From Stdlib Require Import List ZArith NArith PArith Lia Bool.
From Stdlib Require Import Sorting.Sorted Permutation.
From Stdlib Require Import Floats.SpecFloat.
From Stdlib Require Import DecimalZ.
Import ListNotations.

Set Implicit Arguments.

(* ================================================================== *)
(** * Python strings *)
(* ================================================================== *)

(** A [str] is a list of code points. *)
Definition pystr := list N.

Definition pystr_eqb (s t : pystr) : bool :=
  if list_eq_dec N.eq_dec s t then true else false.

(** The bytes of a Rocq string literal; source text is UTF-8. *)
Fixpoint bytes_of (s : string) : list N :=
  match s with
  | EmptyString => []
  | String c r => N_of_ascii c :: bytes_of r
  end.

Definition is_cont (b : N) : bool := ((128 <=? b) && (b <? 192))%N.

Definition is_surrogate (c : N) : bool := ((55296 <=? c) && (c <? 57344))%N.

(** Strict UTF-8 decoding, as [open(..., encoding='utf-8')] reads: overlong
    forms, surrogates and code points above U+10FFFF are errors. *)
Fixpoint utf8_decode (bs : list N) : option pystr :=
  match bs with
  | [] => Some []
  | b0 :: r0 =>
    if (b0 <? 128)%N then option_map (cons b0) (utf8_decode r0)
    else if (b0 <? 192)%N then None
    else if (b0 <? 224)%N then
      match r0 with
      | b1 :: r1 =>
        let c := ((b0 - 192) * 64 + (b1 - 128))%N in
        if is_cont b1 && (128 <=? c)%N
        then option_map (cons c) (utf8_decode r1) else None
      | _ => None
      end
    else if (b0 <? 240)%N then
      match r0 with
      | b1 :: b2 :: r2 =>
        let c := ((b0 - 224) * 4096 + (b1 - 128) * 64 + (b2 - 128))%N in
        if is_cont b1 && is_cont b2 && (2048 <=? c)%N && negb (is_surrogate c)
        then option_map (cons c) (utf8_decode r2) else None
      | _ => None
      end
    else if (b0 <? 248)%N then
      match r0 with
      | b1 :: b2 :: b3 :: r3 =>
        let c := ((b0 - 240) * 262144 + (b1 - 128) * 4096
                  + (b2 - 128) * 64 + (b3 - 128))%N in
        if is_cont b1 && is_cont b2 && is_cont b3
           && (65536 <=? c)%N && (c <? 1114112)%N
        then option_map (cons c) (utf8_decode r3) else None
      | _ => None
      end
    else None
  end.

(** UTF-8 encoding of one code point; a surrogate cannot be encoded. *)
Definition utf8_encode_cp (c : N) : option (list N) :=
  if (c <? 128)%N then Some [c]
  else if (c <? 2048)%N then Some [192 + c / 64; 128 + c mod 64]%N
  else if (c <? 65536)%N then
    if is_surrogate c then None
    else Some [224 + c / 4096; 128 + (c / 64) mod 64; 128 + c mod 64]%N
  else if (c <? 1114112)%N then
    Some [240 + c / 262144; 128 + (c / 4096) mod 64;
          128 + (c / 64) mod 64; 128 + c mod 64]%N
  else None.

Fixpoint utf8_encode (s : pystr) : option (list N) :=
  match s with
  | [] => Some []
  | c :: r =>
    match utf8_encode_cp c, utf8_encode r with
    | Some bs, Some rs => Some (bs ++ rs)
    | _, _ => None
    end
  end.

(** A string literal of the source. *)
Definition u (s : string) : pystr :=
  match utf8_decode (bytes_of s) with
  | Some l => l
  | None => []
  end.

(** [p in s] on strings: [p] occurs in [s] as a contiguous run. *)
Fixpoint starts_with (s p : pystr) : bool :=
  match p, s with
  | [], _ => true
  | _ :: _, [] => false
  | x :: p', y :: s' => (x =? y)%N && starts_with s' p'
  end.

Fixpoint str_in (p s : pystr) : bool :=
  starts_with s p ||
  match s with
  | [] => false
  | _ :: s' => str_in p s'
  end.

(** [sep.join(parts)]. *)
Fixpoint join (sep : pystr) (parts : list pystr) : pystr :=
  match parts with
  | [] => []
  | [p] => p
  | p :: rest => p ++ sep ++ join sep rest
  end.

(** [l[:k]] for an [int] [k]: a negative [k] counts from the end. *)
Definition slice_to (A : Type) (k : Z) (l : list A) : list A :=
  if (0 <=? k)%Z then firstn (Z.to_nat k) l
  else firstn (length l - Z.to_nat (- k)) l.

(** [len] as an [int]. *)
Definition len (A : Type) (l : list A) : Z := Z.of_nat (length l).

(** ** Matching [\b\w+\b]

    [re.findall(r'\b\w+\b', s)] returns the maximal runs of word characters
    of [s], left to right: a match has to start and end at a word boundary,
    and [\w+] is greedy. *)
Section Findall.
Variable isword : N -> bool.

Fixpoint findall_from (s : pystr) (cur : pystr) : list pystr :=
  match s with
  | [] => match cur with [] => [] | _ => [rev cur] end
  | c :: r =>
    if isword c then findall_from r (c :: cur)
    else match cur with
         | [] => findall_from r []
         | _ => rev cur :: findall_from r []
         end
  end.

Definition findall_words (s : pystr) : list pystr := findall_from s [].
End Findall.

(* ================================================================== *)
(** * Python floats: binary64 *)
(* ================================================================== *)

Definition float := spec_float.
Definition prec : Z := 53.
Definition emax : Z := 1024.

Definition fadd : float -> float -> float := SFadd prec emax.
Definition fmul : float -> float -> float := SFmul prec emax.
Definition fdiv : float -> float -> float := SFdiv prec emax.

(** [x < y], [x > y] and [x >= y] on floats; all false on a NaN. *)
Definition flt (x y : float) : bool := SFltb x y.
Definition fgt (x y : float) : bool :=
  match SFcompare x y with Some Gt => true | _ => false end.
Definition fge (x y : float) : bool :=
  match SFcompare x y with Some (Gt | Eq) => true | _ => false end.

(** Conversion of an [int] operand in mixed arithmetic, to nearest even. *)
Definition float_of_int (z : Z) : float := binary_normalize prec emax z 0 false.

(** The literals of the module. *)
Definition f0 : float := S754_zero false.
Definition f0_1 : float := S754_finite false 7205759403792794 (-56).
Definition f0_3 : float := S754_finite false 5404319552844595 (-54).
Definition f1_0 : float := S754_finite false 4503599627370496 (-52).
Definition f1_2 : float := S754_finite false 5404319552844595 (-52).
Definition f1_5 : float := S754_finite false 6755399441055744 (-52).
Definition f2_0 : float := S754_finite false 4503599627370496 (-51).
Definition f2_7 : float := S754_finite false 6079859496950170 (-51).

(** [min(x, y)] returns [x] unless [y < x]. *)
Definition fmin (x y : float) : float := if flt y x then y else x.

(** [difflib._calculate_ratio(matches, length)]. *)
Definition calculate_ratio (matches length : Z) : float :=
  if (length =? 0)%Z then f1_0
  else fdiv (fmul f2_0 (float_of_int matches)) (float_of_int length).

(* ================================================================== *)
(** * What the module takes from Python's runtime *)
(* ================================================================== *)

Definition is_ascii (c : N) : bool := (c <? 128)%N.

Definition ascii_lower_cp (c : N) : N :=
  if ((65 <=? c) && (c <=? 90))%N then (c + 32)%N else c.

(** [\w] on ASCII: letters, digits and the underscore. *)
Definition ascii_isword (c : N) : bool :=
  (((48 <=? c) && (c <=? 57)) || ((65 <=? c) && (c <=? 90))
   || ((97 <=? c) && (c <=? 122)) || (c =? 95))%N.

(** - [lower s] is [s.lower()];
    - [isword c] tells whether [\w] matches [c];
    - [matching_size a b] is the sum of the sizes of the blocks of
      [SequenceMatcher(None, a, b).get_matching_blocks()];
    - [set_order l] is [list(set(l))], whose order Python leaves open. *)
Class PyRuntime := {
  lower : pystr -> pystr;
  isword : N -> bool;
  matching_size : pystr -> pystr -> nat;
  set_order : list pystr -> list pystr;
  lower_nil : forall s, lower s = [] <-> s = [];
  lower_idem : forall s, lower (lower s) = lower s;
  lower_ascii : forall s,
      forallb is_ascii s = true -> lower s = map ascii_lower_cp s;
  isword_ascii : forall c, is_ascii c = true -> isword c = ascii_isword c;
  matching_size_nil : forall b, matching_size [] b = 0;
  set_order_NoDup : forall l, NoDup (set_order l);
  set_order_In : forall l x, In x (set_order l) <-> In x l
}.

(* ================================================================== *)
(** * Chunks *)
(* ================================================================== *)

(** A chunk is a [dict] with string values, keys in insertion order. *)
Definition chunk := list (pystr * pystr).

Fixpoint dict_find (key : pystr) (d : chunk) : option pystr :=
  match d with
  | [] => None
  | (k, v) :: r => if pystr_eqb k key then Some v else dict_find key r
  end.

(** [d.get(key, default)]. *)
Definition get (d : chunk) (key default : pystr) : pystr :=
  match dict_find key d with
  | Some v => v
  | None => default
  end.

Definition k_chunk : pystr := u "chunk".
Definition k_subtopic : pystr := u "subtopic".
Definition k_chapter : pystr := u "chapter".

(** Truth value of a string: non-empty. *)
Definition truthy (s : pystr) : bool :=
  match s with [] => false | _ => true end.

(** [x in l] on a list of strings. *)
Definition mem (x : pystr) (l : list pystr) : bool := existsb (pystr_eqb x) l.

(* ================================================================== *)
(** * [RAGKnowledgeBase]: scoring, ranking, context, topics *)
(* ================================================================== *)

(** [list.sort(key=..., reverse=True)]: the stable sort by decreasing key.
    Elements are compared with [<] on their keys only; an element moves
    behind those with a strictly greater key and stays ahead of its equals
    that followed it. *)
Section Sort.
Variable A : Type.
Variable key : A -> float.

Fixpoint insert_desc (x : A) (l : list A) : list A :=
  match l with
  | [] => [x]
  | y :: l' => if flt (key x) (key y) then y :: insert_desc x l' else x :: l
  end.

Definition sort_desc (l : list A) : list A := fold_right insert_desc [] l.
End Sort.

Section RAG.
Context {py : PyRuntime}.

(** [SequenceMatcher(None, a, b).ratio()]. *)
Definition ratio (a b : pystr) : float :=
  calculate_ratio (Z.of_nat (matching_size a b)) (len a + len b).

Definition similarity_score (text1 text2 : pystr) : float :=
  ratio (lower text1) (lower text2).

(** The keyword loop of [search_relevant_chunks]; the accumulator starts
    at the [int] 0, which every later float operation reads as 0.0. *)
Definition keyword_loop (keywords : list pystr)
           (chunk_text subtopic chapter : pystr) : float :=
  fold_left
    (fun keyword_score keyword =>
       if str_in keyword chunk_text || str_in keyword subtopic
          || str_in keyword chapter
       then fadd keyword_score f0_3 else keyword_score)
    keywords f0.

(** The body of the scoring loop for one chunk: [total_score]. *)
Definition total_score (query : pystr) (c : chunk) : float :=
  let query_lower := lower query in
  let chunk_text := lower (get c k_chunk []) in
  let subtopic := lower (get c k_subtopic []) in
  let chapter := lower (get c k_chapter []) in
  let content_score := similarity_score query_lower chunk_text in
  let subtopic_score := fmul (similarity_score query_lower subtopic) f1_5 in
  let chapter_score := fmul (similarity_score query_lower chapter) f1_2 in
  let keywords := findall_words isword query_lower in
  let keyword_score := keyword_loop keywords chunk_text subtopic chapter in
  fadd (fadd (fadd content_score subtopic_score) chapter_score)
       (fmin keyword_score f1_0).

(** The scoring loop: [scored_chunks], an entry being the pair of the
    chunk and its score. *)
Fixpoint score_loop (query : pystr) (knowledge_chunks : list chunk)
  : list (chunk * float) :=
  match knowledge_chunks with
  | [] => []
  | c :: rest =>
    let total := total_score query c in
    if fgt total f0_1 then (c, total) :: score_loop query rest
    else score_loop query rest
  end.

(** [scored_chunks] after the sort. *)
Definition ranked (knowledge_chunks : list chunk) (query : pystr)
  : list (chunk * float) :=
  sort_desc snd (score_loop query knowledge_chunks).

Definition search_relevant_chunks (knowledge_chunks : list chunk)
           (query : pystr) (top_k : Z) : list chunk :=
  match knowledge_chunks with
  | [] => []
  | _ => map fst (slice_to top_k (ranked knowledge_chunks query))
  end.

Definition fallback_context : pystr :=
  u "Physics concepts from Class 10 curriculum.".

(** The f-string of [get_context_for_query]. *)
Definition formatted_chunk (c : chunk) : pystr :=
  let chunk_text := get c k_chunk [] in
  let subtopic := get c k_subtopic [] in
  let chapter := get c k_chapter [] in
  u "📚 **" ++ chapter ++ u "** - " ++ subtopic ++ u ":" ++ [10%N]
    ++ chunk_text ++ [10%N].

(** The assembling loop, with its [break]. *)
Fixpoint context_loop (relevant_chunks : list chunk)
         (max_context_length current_length : Z) : list pystr :=
  match relevant_chunks with
  | [] => []
  | c :: rest =>
    let f := formatted_chunk c in
    if (current_length + len f <=? max_context_length)%Z
    then f :: context_loop rest max_context_length (current_length + len f)
    else []
  end.

Definition get_context_for_query (knowledge_chunks : list chunk)
           (query : pystr) (max_context_length : Z) : pystr :=
  match search_relevant_chunks knowledge_chunks query 3 with
  | [] => fallback_context
  | relevant_chunks =>
    join [10%N] (context_loop relevant_chunks max_context_length 0)
  end.

(** The loop of [get_chapter_topics] for a given chapter. *)
Fixpoint topics_loop (knowledge_chunks : list chunk) (chapter : pystr)
         (topics : list pystr) : list pystr :=
  match knowledge_chunks with
  | [] => topics
  | c :: rest =>
    if str_in (lower chapter) (lower (get c k_chapter [])) then
      let topic := get c k_subtopic [] in
      if truthy topic && negb (mem topic topics)
      then topics_loop rest chapter (topics ++ [topic])
      else topics_loop rest chapter topics
    else topics_loop rest chapter topics
  end.

(** [chapter] is [None] by default; [not chapter] holds for [None] and
    for the empty string. *)
Definition get_chapter_topics (knowledge_chunks : list chunk)
           (chapter : option pystr) : list pystr :=
  match chapter with
  | None | Some [] =>
    set_order
      (map (fun c => get c k_subtopic [])
           (filter (fun c => match dict_find k_subtopic c with
                             | Some v => truthy v
                             | None => false
                             end) knowledge_chunks))
  | Some ch => topics_loop knowledge_chunks ch []
  end.
End RAG.

(** The literal of [_create_sample_knowledge_base]. *)
Definition sample_chunks : list chunk := [
    [
     (u "chunk",
      u "Light is a form of energy which enables us to see objects. We see objects when light emitted or reflected by them reaches our eyes. Light travels in straight lines. This can be observed from the fact that a small source of light casts sharp shadows of opaque objects. The straight-line path of light is called a ray of light.");
     (u "subtopic",
      u "Nature of Light");
     (u "chapter",
      u "Light - Reflection and Refraction")
    ];
    [
     (u "chunk",
      u "When light falls on a surface, it can be reflected, absorbed, or transmitted. The phenomenon of bouncing back of light rays from a surface is called reflection. Laws of reflection: (1) The incident ray, reflected ray and normal all lie in the same plane. (2) The angle of incidence is equal to the angle of reflection (∠i = ∠r).");
     (u "subtopic",
      u "Reflection of Light");
     (u "chapter",
      u "Light - Reflection and Refraction")
    ];
    [
     (u "chunk",
      u "A spherical mirror is a mirror whose reflecting surface is part of a sphere. There are two types: Concave mirror (converging mirror) - curves inward, can form real and virtual images. Convex mirror (diverging mirror) - curves outward, always forms virtual, diminished images. The focal length f = R/2, where R is radius of curvature.");
     (u "subtopic",
      u "Spherical Mirrors");
     (u "chapter",
      u "Light - Reflection and Refraction")
    ];
    [
     (u "chunk",
      u "Mirror formula: 1/v + 1/u = 1/f, where v = image distance, u = object distance, f = focal length. Magnification m = -v/u = height of image/height of object. For concave mirrors, focal length is positive; for convex mirrors, focal length is negative.");
     (u "subtopic",
      u "Mirror Formula");
     (u "chapter",
      u "Light - Reflection and Refraction")
    ];
    [
     (u "chunk",
      u "Refraction is the bending of light when it travels from one transparent medium to another. This happens due to change in speed of light in different media. Laws of refraction: (1) Incident ray, refracted ray and normal lie in the same plane. (2) Snell's law: n₁sin(θ₁) = n₂sin(θ₂), where n is refractive index.");
     (u "subtopic",
      u "Refraction of Light");
     (u "chapter",
      u "Light - Reflection and Refraction")
    ];
    [
     (u "chunk",
      u "A lens is a transparent object with at least one curved surface that can converge or diverge light rays. Convex lens (converging lens) - thicker at center, focal length positive, can form real and virtual images. Concave lens (diverging lens) - thinner at center, focal length negative, always forms virtual images.");
     (u "subtopic",
      u "Lenses");
     (u "chapter",
      u "Light - Reflection and Refraction")
    ];
    [
     (u "chunk",
      u "Lens formula: 1/v - 1/u = 1/f. Power of lens P = 1/f (in meters), measured in diopters (D). For combination of lenses: P = P₁ + P₂ + ... The human eye works like a camera with a convex lens (crystalline lens) forming real, inverted images on retina.");
     (u "subtopic",
      u "Lens Formula and Human Eye");
     (u "chapter",
      u "Light - Reflection and Refraction")
    ];
    [
     (u "chunk",
      u "Electric current is the flow of electric charge through a conductor. SI unit is ampere (A). One ampere = 1 coulomb/second. Current flows from positive terminal to negative terminal (conventional current direction). In metals, current is due to flow of free electrons (opposite to conventional current).");
     (u "subtopic",
      u "Electric Current");
     (u "chapter",
      u "Electricity")
    ];
    [
     (u "chunk",
      u "Electric potential difference (voltage) is the work done per unit charge to move charge between two points. V = W/Q. SI unit is volt (V). One volt = 1 joule/coulomb. Potential difference drives current through a circuit. Higher voltage means more energy per unit charge.");
     (u "subtopic",
      u "Electric Potential");
     (u "chapter",
      u "Electricity")
    ];
    [
     (u "chunk",
      u "Ohm's Law states that current through a conductor is directly proportional to potential difference across it, provided temperature remains constant. V = I × R, where V = voltage, I = current, R = resistance. Resistance opposes flow of current. SI unit of resistance is ohm (Ω).");
     (u "subtopic",
      u "Ohm's Law");
     (u "chapter",
      u "Electricity")
    ];
    [
     (u "chunk",
      u "Factors affecting resistance: (1) Length - R ∝ l (2) Area of cross-section - R ∝ 1/A (3) Material - depends on resistivity ρ (4) Temperature - for conductors, R increases with temperature. Formula: R = ρl/A. Resistivity is a material property.");
     (u "subtopic",
      u "Resistance");
     (u "chapter",
      u "Electricity")
    ];
    [
     (u "chunk",
      u "Series combination: Resistances add up, Rs = R₁ + R₂ + R₃... Current same through all resistors. Parallel combination: 1/Rp = 1/R₁ + 1/R₂ + 1/R₃... Voltage same across all resistors. Parallel combination gives less total resistance than individual resistances.");
     (u "subtopic",
      u "Resistor Combinations");
     (u "chapter",
      u "Electricity")
    ];
    [
     (u "chunk",
      u "Electric power is the rate of consumption of electric energy. P = VI = I²R = V²/R. SI unit is watt (W). Electric energy consumed = P × t = VIt. Commercial unit of energy is kilowatt-hour (kWh). 1 kWh = 3.6 × 10⁶ J. Electric bill is based on energy consumed.");
     (u "subtopic",
      u "Electric Power");
     (u "chapter",
      u "Electricity")
    ];
    [
     (u "chunk",
      u "A magnetic field exists around a magnet and current-carrying conductor. Magnetic field lines are imaginary lines showing direction of magnetic field. They emerge from North pole and enter South pole. Field lines never intersect. Uniform field has parallel, equally spaced lines.");
     (u "subtopic",
      u "Magnetic Field");
     (u "chapter",
      u "Magnetic Effects of Electric Current")
    ];
    [
     (u "chunk",
      u "Current-carrying conductor produces magnetic field. Direction given by Right Hand Thumb Rule: Thumb shows current direction, fingers curl in direction of magnetic field. For circular loop: field lines are circular near wire, straight at center. For solenoid: behaves like bar magnet.");
     (u "subtopic",
      u "Magnetic Field due to Current");
     (u "chapter",
      u "Magnetic Effects of Electric Current")
    ];
    [
     (u "chunk",
      u "Force on current-carrying conductor in magnetic field: F = BIl sin θ, where B = magnetic field, I = current, l = length, θ = angle. Direction by Fleming's Left Hand Rule: Thumb = Force, Index finger = Field, Middle finger = Current. Used in electric motors.");
     (u "subtopic",
      u "Force on Current-carrying Conductor");
     (u "chapter",
      u "Magnetic Effects of Electric Current")
    ];
    [
     (u "chunk",
      u "Electromagnetic induction: When magnetic flux through a conductor changes, EMF is induced. Faraday's laws: (1) Changing magnetic flux induces EMF. (2) Induced EMF = -dΦ/dt. Fleming's Right Hand Rule gives direction of induced current. Used in generators, transformers.");
     (u "subtopic",
      u "Electromagnetic Induction");
     (u "chapter",
      u "Magnetic Effects of Electric Current")
    ]
  ].

(* ================================================================== *)
(** * An executable runtime *)
(* ================================================================== *)

(** ** [difflib.SequenceMatcher(None, a, b)]

    No junk predicate is given, so [bjunk] is empty and the two loops of
    [find_longest_match] that extend a match over junk never run; with
    [autojunk] left on, an element of a [b] of 200 elements or more that
    occurs more than [len(b) // 100 + 1] times is dropped from [b2j]. *)
Section Difflib.
Variables a b : pystr.

Definition count_in (x : N) (l : pystr) : nat :=
  length (filter (N.eqb x) l).

Definition popular (x : N) : bool :=
  ((200 <=? length b) && (length b / 100 + 1 <? count_in x b))%nat.

Fixpoint indices_from (x : N) (l : pystr) (j : nat) : list nat :=
  match l with
  | [] => []
  | y :: r =>
    if (x =? y)%N then j :: indices_from x r (S j)
    else indices_from x r (S j)
  end.

(** [b2j.get(x, [])] after [__chain_b]. *)
Definition b2j_get (x : N) : list nat :=
  if popular x then [] else indices_from x b 0.

(** [j2len.get(j, 0)]. *)
Fixpoint j2len_get (j2len : list (nat * nat)) (j : nat) : nat :=
  match j2len with
  | [] => 0
  | (j', k) :: r => if (j' =? j)%nat then k else j2len_get r j
  end.

(** The loop over the positions [j] of [a[i]] in [b]; [j - 1] is no key
    when [j] is 0. *)
Fixpoint row_loop (i blo bhi : nat) (j2len : list (nat * nat))
         (js : list nat) (newj2len : list (nat * nat))
         (best : nat * nat * nat) : list (nat * nat) * (nat * nat * nat) :=
  match js with
  | [] => (newj2len, best)
  | j :: r =>
    if (j <? blo)%nat then row_loop i blo bhi j2len r newj2len best
    else if (bhi <=? j)%nat then (newj2len, best)
    else
      let k := (match j with 0 => 0 | S j' => j2len_get j2len j' end + 1)%nat in
      let '(_, _, bestsize) := best in
      let best' := if (bestsize <? k)%nat
                   then ((i + 1 - k)%nat, (j + 1 - k)%nat, k) else best in
      row_loop i blo bhi j2len r ((j, k) :: newj2len) best'
  end.

Definition rows (alo ahi blo bhi : nat) : nat * nat * nat :=
  snd (fold_left
         (fun (st : list (nat * nat) * (nat * nat * nat)) i =>
            row_loop i blo bhi (fst st) (b2j_get (nth i a 0%N)) [] (snd st))
         (seq alo (ahi - alo)) ([], (alo, blo, 0))).

(** The first [while]: extend the match to the left. *)
Fixpoint extend_left (alo blo besti bestj bestsize : nat) {struct besti}
  : nat * nat * nat :=
  match besti with
  | 0 => (besti, bestj, bestsize)
  | S besti' =>
    if ((alo <? besti) && (blo <? bestj))%nat
       && (nth besti' a 0 =? nth (bestj - 1) b 0)%N
    then extend_left alo blo besti' (bestj - 1) (S bestsize)
    else (besti, bestj, bestsize)
  end.

(** The second [while]: extend it to the right; [room] is
    [ahi - (besti + bestsize)], which bounds the iterations. *)
Fixpoint extend_right (room : nat) (ahi bhi besti bestj bestsize : nat)
  : nat :=
  match room with
  | 0 => bestsize
  | S room' =>
    if ((besti + bestsize <? ahi) && (bestj + bestsize <? bhi))%nat
       && (nth (besti + bestsize) a 0 =? nth (bestj + bestsize) b 0)%N
    then extend_right room' ahi bhi besti bestj (S bestsize)
    else bestsize
  end.

Definition find_longest_match (alo ahi blo bhi : nat) : nat * nat * nat :=
  let '(besti0, bestj0, bestsize0) := rows alo ahi blo bhi in
  let '(besti, bestj, bestsize1) :=
    extend_left alo blo besti0 bestj0 bestsize0 in
  (besti, bestj,
   extend_right (ahi - (besti + bestsize1)) ahi bhi besti bestj bestsize1).

(** The [while queue] loop of [get_matching_blocks]; the head of [queue]
    is the end of Python's list, where [pop] and [append] work.  The sort
    and the merge of adjacent blocks that follow keep the sum of the
    sizes, which is all that [ratio] reads. *)
Fixpoint blocks_loop (fuel : nat) (queue : list (nat * nat * nat * nat))
         (matching_blocks : list (nat * nat * nat))
  : option (list (nat * nat * nat)) :=
  match queue with
  | [] => Some matching_blocks
  | (alo, ahi, blo, bhi) :: queue' =>
    match fuel with
    | 0 => None
    | S fuel' =>
      let '(i, j, k) := find_longest_match alo ahi blo bhi in
      match k with
      | 0 => blocks_loop fuel' queue' matching_blocks
      | _ =>
        let q1 := if ((alo <? i) && (blo <? j))%nat
                  then (alo, i, blo, j) :: queue' else queue' in
        let q2 := if ((i + k <? ahi) && (j + k <? bhi))%nat
                  then (i + k, ahi, j + k, bhi)%nat :: q1 else q1 in
        blocks_loop fuel' q2 (matching_blocks ++ [(i, j, k)])
      end
    end
  end.

(** Each turn of the loop either closes a range or splits it into two
    shorter ones, so a fuel of twice [len(a)] plus one is never used up
    (lemma [get_matching_blocks_total]). *)
Definition get_matching_blocks : option (list (nat * nat * nat)) :=
  blocks_loop (2 * length a + 1) [(0, length a, 0, length b)] [].

Definition difflib_matches : nat :=
  match get_matching_blocks with
  | Some blocks => fold_right (fun t acc => snd t + acc) 0 blocks
  | None => 0
  end.
End Difflib.

(** [list(set(l))] in one admissible order: first occurrences. *)
Fixpoint first_seen (l : list pystr) : list pystr :=
  match l with
  | [] => []
  | x :: r => x :: filter (fun y => negb (pystr_eqb x y)) (first_seen r)
  end.

(* ================================================================== *)
(** * JSON *)
(* ================================================================== *)

(** What [json.load] returns.  A number with a fraction or an exponent is
    kept as its lexeme: the module never computes with it. *)
#[warnings="-register-all"]
Inductive json : Type :=
| JNull
| JBool (b : bool)
| JInt (z : Z)
| JFloat (lexeme : pystr)
| JStr (s : pystr)
| JList (l : list json)
| JDict (d : list (pystr * json)).

(** A chunk as a JSON object, and the corpus as a JSON array. *)
Definition chunk_json (c : chunk) : json :=
  JDict (map (fun kv => (fst kv, JStr (snd kv))) c).

Definition chunks_json (l : list chunk) : json := JList (map chunk_json l).



(** ** [json.dump(sample_chunks, f, indent=2, ensure_ascii=False)]

    The text written for a list of dicts of strings. *)
Definition hex_digit (n : N) : N :=
  if (n <? 10)%N then (48 + n)%N else (87 + n)%N.

Definition escape_cp (c : N) : pystr :=
  if (c =? 34)%N then u "\" ++ [34%N]
  else if (c =? 92)%N then u "\\"
  else if (c =? 10)%N then u "\n"
  else if (c =? 13)%N then u "\r"
  else if (c =? 9)%N then u "\t"
  else if (c =? 8)%N then u "\b"
  else if (c =? 12)%N then u "\f"
  else if (c <? 32)%N then u "\u00" ++ [hex_digit (c / 16); hex_digit (c mod 16)]
  else [c].

Definition dump_str (s : pystr) : pystr :=
  [34%N] ++ flat_map escape_cp s ++ [34%N].

Definition newline_indent (n : nat) : pystr := 10%N :: repeat 32%N n.

Definition dump_chunk (c : chunk) : pystr :=
  match c with
  | [] => u "{}"
  | _ =>
    u "{" ++ newline_indent 4
      ++ join (u "," ++ newline_indent 4)
              (map (fun kv => dump_str (fst kv) ++ u ": " ++ dump_str (snd kv)) c)
      ++ newline_indent 2 ++ u "}"
  end.

Definition dump_chunks (l : list chunk) : pystr :=
  match l with
  | [] => u "[]"
  | _ =>
    u "[" ++ newline_indent 2
      ++ join (u "," ++ newline_indent 2) (map dump_chunk l)
      ++ newline_indent 0 ++ u "]"
  end.

(** ** [json.loads] *)
Definition is_ws (c : N) : bool :=
  ((c =? 32) || (c =? 9) || (c =? 10) || (c =? 13))%N.

Fixpoint skip_ws (s : pystr) : pystr :=
  match s with
  | c :: r => if is_ws c then skip_ws r else s
  | [] => []
  end.

Definition is_digit (c : N) : bool := ((48 <=? c) && (c <=? 57))%N.

Definition hex_value (c : N) : option N :=
  if is_digit c then Some (c - 48)%N
  else if ((97 <=? c) && (c <=? 102))%N then Some (c - 87)%N
  else if ((65 <=? c) && (c <=? 70))%N then Some (c - 55)%N
  else None.

(** Four hexadecimal digits after [\u]. *)
Definition hex4 (s : pystr) : option (N * pystr) :=
  match s with
  | a :: b :: c :: d :: r =>
    match hex_value a, hex_value b, hex_value c, hex_value d with
    | Some x, Some y, Some z, Some t =>
      Some (x * 4096 + y * 256 + z * 16 + t, r)%N
    | _, _, _, _ => None
    end
  | _ => None
  end.

(** The body of a string, after its opening quote (strict mode: a raw
    control character is an error); a [\u] pair of surrogates is joined. *)
Fixpoint parse_str (fuel : nat) (s acc : pystr) : option (pystr * pystr) :=
  match fuel with
  | O => None
  | S fuel' =>
    match s with
    | [] => None
    | c :: r =>
      if (c =? 34)%N then Some (rev acc, r)
      else if (c =? 92)%N then
        match r with
        | [] => None
        | e :: r' =>
          if (e =? 117)%N then
            match hex4 r' with
            | None => None
            | Some (hi, r2) =>
              let single := parse_str fuel' r2 (hi :: acc) in
              if ((55296 <=? hi) && (hi <? 56320))%N then
                match r2 with
                | 92%N :: 117%N :: r3 =>
                  match hex4 r3 with
                  | Some (lo, r4) =>
                    if ((56320 <=? lo) && (lo <? 57344))%N
                    then parse_str fuel' r4
                           ((65536 + (hi - 55296) * 1024 + (lo - 56320))%N :: acc)
                    else single
                  | None => single
                  end
                | _ => single
                end
              else single
            end
          else
            let simple (x : N) := parse_str fuel' r' (x :: acc) in
            if (e =? 34)%N then simple 34%N
            else if (e =? 92)%N then simple 92%N
            else if (e =? 47)%N then simple 47%N
            else if (e =? 98)%N then simple 8%N
            else if (e =? 102)%N then simple 12%N
            else if (e =? 110)%N then simple 10%N
            else if (e =? 114)%N then simple 13%N
            else if (e =? 116)%N then simple 9%N
            else None
        end
      else if (c <? 32)%N then None
      else parse_str fuel' r (c :: acc)
    end
  end.

Fixpoint take_digits (s : pystr) : pystr * pystr :=
  match s with
  | c :: r =>
    if is_digit c then let '(ds, rest) := take_digits r in (c :: ds, rest)
    else ([], s)
  | [] => ([], [])
  end.

Definition digits_value (ds : pystr) : Z :=
  fold_left (fun acc c => (acc * 10 + Z.of_N (c - 48))%Z) ds 0%Z.

(** A number: an optional minus sign, an integer part with no leading
    zero, then an optional fraction and an optional exponent. *)
Definition parse_number (s : pystr) : option (json * pystr) :=
  let '(neg, s1) := match s with
                    | 45%N :: r => (true, r)
                    | _ => (false, s)
                    end in
  let '(int_part, s2) :=
    match s1 with
    | 48%N :: r => ([48%N], r)
    | _ => take_digits s1
    end in
  match int_part with
  | [] => None
  | _ =>
    let '(frac, s3) :=
      match s2 with
      | 46%N :: r =>
        match take_digits r with
        | ([], _) => ([], s2)
        | (ds, rest) => (46%N :: ds, rest)
        end
      | _ => ([], s2)
      end in
    let '(exp, s4) :=
      match s3 with
      | e :: r =>
        if ((e =? 101) || (e =? 69))%N then
          let '(sign, r') := match r with
                             | sg :: r1 =>
                               if ((sg =? 43) || (sg =? 45))%N
                               then ([sg], r1) else ([], r)
                             | [] => ([], r)
                             end in
          match take_digits r' with
          | ([], _) => ([], s3)
          | (ds, rest) => (e :: sign ++ ds, rest)
          end
        else ([], s3)
      | [] => ([], s3)
      end in
    let sign := if neg then [45%N] else [] in
    match frac, exp with
    | [], [] =>
      Some (JInt (if neg then - digits_value int_part
                  else digits_value int_part)%Z, s4)
    | _, _ => Some (JFloat (sign ++ int_part ++ frac ++ exp), s4)
    end
  end.

(** [d[key] = v] on an object under construction: a repeated key keeps its
    place and takes the last value. *)
Fixpoint dict_set (d : list (pystr * json)) (key : pystr) (v : json)
  : list (pystr * json) :=
  match d with
  | [] => [(key, v)]
  | (k, x) :: r =>
    if pystr_eqb k key then (k, v) :: r else (k, x) :: dict_set r key v
  end.

Definition strip_prefix (p s : pystr) : option pystr :=
  if starts_with s p then Some (skipn (length p) s) else None.

(** One value at the head of [s] (no leading white space), and the rest. *)
Fixpoint parse_value (fuel : nat) (s : pystr) : option (json * pystr) :=
  match fuel with
  | O => None
  | S fuel' =>
    match s with
    | [] => None
    | c :: r =>
      if (c =? 34)%N then
        match parse_str (S (length r)) r [] with
        | Some (str, rest) => Some (JStr str, rest)
        | None => None
        end
      else if (c =? 123)%N then
        match skip_ws r with
        | 125%N :: rest => Some (JDict [], rest)
        | r1 => parse_members fuel' r1 []
        end
      else if (c =? 91)%N then
        match skip_ws r with
        | 93%N :: rest => Some (JList [], rest)
        | r1 => parse_items fuel' r1 []
        end
      else
        match strip_prefix (u "null") s, strip_prefix (u "true") s,
              strip_prefix (u "false") s with
        | Some rest, _, _ => Some (JNull, rest)
        | _, Some rest, _ => Some (JBool true, rest)
        | _, _, Some rest => Some (JBool false, rest)
        | _, _, _ =>
          match strip_prefix (u "NaN") s, strip_prefix (u "Infinity") s,
                strip_prefix (u "-Infinity") s with
          | Some rest, _, _ => Some (JFloat (u "NaN"), rest)
          | _, Some rest, _ => Some (JFloat (u "Infinity"), rest)
          | _, _, Some rest => Some (JFloat (u "-Infinity"), rest)
          | _, _, _ => parse_number s
          end
        end
    end
  end

(** The members of an object, from a key on. *)
with parse_members (fuel : nat) (s : pystr) (acc : list (pystr * json))
  : option (json * pystr) :=
  match fuel with
  | O => None
  | S fuel' =>
    match s with
    | 34%N :: r =>
      match parse_str (S (length r)) r [] with
      | Some (key, r1) =>
        match skip_ws r1 with
        | 58%N :: r2 =>
          match parse_value fuel' (skip_ws r2) with
          | Some (v, r3) =>
            let acc' := dict_set acc key v in
            match skip_ws r3 with
            | 125%N :: rest => Some (JDict acc', rest)
            | 44%N :: r4 => parse_members fuel' (skip_ws r4) acc'
            | _ => None
            end
          | None => None
          end
        | _ => None
        end
      | None => None
      end
    | _ => None
    end
  end

(** The items of an array, from a value on. *)
with parse_items (fuel : nat) (s : pystr) (acc : list json)
  : option (json * pystr) :=
  match fuel with
  | O => None
  | S fuel' =>
    match parse_value fuel' s with
    | Some (v, r1) =>
      match skip_ws r1 with
      | 93%N :: rest => Some (JList (acc ++ [v]), rest)
      | 44%N :: r2 => parse_items fuel' (skip_ws r2) (acc ++ [v])
      | _ => None
      end
    | None => None
    end
  end.

(** [json.loads]: one value, white space allowed around it, nothing else. *)
Definition json_loads (text : pystr) : option json :=
  match parse_value (S (length text)) (skip_ws text) with
  | Some (v, rest) =>
    match skip_ws rest with
    | [] => Some v
    | _ => None
    end
  | None => None
  end.

(* ================================================================== *)
(** * The corpus loader *)
(* ================================================================== *)

(** Exceptions, all of them subclasses of [Exception]. *)
Inductive exn : Type :=
| FileNotFoundError
| OSError
| UnicodeDecodeError
| UnicodeEncodeError
| JSONDecodeError
| AttributeError
| TypeError.

Inductive result (A : Type) : Type :=
| Ok (a : A)
| Raise (e : exn).
Arguments Ok {A} a.
Arguments Raise {A} e.

(** What a path names: a file that can be read, with its bytes, or
    something that exists and cannot be read (a directory, a file without
    the permission). *)
Inductive node : Type :=
| File (content : list N)
| Unreadable.

(** The file system as the loader sees it: what each path names, where
    [os.makedirs] succeeds and which paths can be opened for writing. *)
Record world : Type := {
  files : pystr -> option node;
  can_makedirs : pystr -> bool;
  can_write : pystr -> bool
}.

(** [os.path.exists]. *)
Definition path_exists (w : world) (path : pystr) : bool :=
  match files w path with
  | Some _ => true
  | None => false
  end.

(** [p[:p.rfind('/') + 1]]. *)
Fixpoint head_of_path (p : pystr) : pystr :=
  match p with
  | [] => []
  | c :: r =>
    let h := head_of_path r in
    if (c =? 47)%N then c :: h
    else match h with
         | [] => []
         | _ => c :: h
         end
  end.

Fixpoint drop_slashes (s : pystr) : pystr :=
  match s with
  | c :: r => if (c =? 47)%N then drop_slashes r else s
  | [] => []
  end.

(** [os.path.dirname]: the head, without its trailing slashes unless it is
    made of slashes only. *)
Definition dirname (p : pystr) : pystr :=
  let head := head_of_path p in
  if forallb (fun c => (c =? 47)%N) head then head
  else rev (drop_slashes (rev head)).

(** [os.makedirs(d, exist_ok=True)]; the empty path always fails. *)
Definition makedirs (w : world) (d : pystr) : result world :=
  match d with
  | [] => Raise FileNotFoundError
  | _ => if can_makedirs w d then Ok w else Raise OSError
  end.

(** The file system once [bytes] are in the file at [path]. *)
Definition put_file (w : world) (path : pystr) (bytes : list N) : world :=
  {| files := fun p => if pystr_eqb p path then Some (File bytes)
                       else files w p;
     can_makedirs := can_makedirs w;
     can_write := can_write w |}.

(** [open(path, 'w', encoding='utf-8')], then the write of [text]. *)
Definition write_text (w : world) (path text : pystr) : result world :=
  if can_write w path then
    match utf8_encode text with
    | None => Raise UnicodeEncodeError
    | Some bytes => Ok (put_file w path bytes)
    end
  else Raise OSError.

(** [open(path, 'r', encoding='utf-8')] and [json.load]. *)
Definition read_json (w : world) (path : pystr) : result json :=
  match files w path with
  | None => Raise FileNotFoundError
  | Some Unreadable => Raise OSError
  | Some (File bytes) =>
    match utf8_decode bytes with
    | None => Raise UnicodeDecodeError
    | Some text =>
      match json_loads text with
      | None => Raise JSONDecodeError
      | Some data => Ok data
      end
    end
  end.

(** [data.get('chunks', [])] on an object. *)
Fixpoint json_get (d : list (pystr * json)) (key : pystr) (default : json)
  : json :=
  match d with
  | [] => default
  | (k, v) :: r => if pystr_eqb k key then v else json_get r key default
  end.

(** [len(x)] is defined on lists, objects and strings. *)
Definition has_len (v : json) : bool :=
  match v with
  | JList _ | JDict _ | JStr _ => true
  | _ => false
  end.

(** [_create_sample_knowledge_base]: the directory, then the file, and only
    then the assignment to [self.knowledge_chunks]. *)
Definition create_sample_knowledge_base (w : world) (knowledge_base_path : pystr)
  : result (world * json) :=
  match makedirs w (dirname knowledge_base_path) with
  | Raise e => Raise e
  | Ok w1 =>
    match write_text w1 knowledge_base_path (dump_chunks sample_chunks) with
    | Raise e => Raise e
    | Ok w2 => Ok (w2, chunks_json sample_chunks)
    end
  end.

(** The choice of [self.knowledge_chunks] from the parsed [data]; [get] is
    no attribute of a value that is neither a list nor an object, and the
    [print] after the [with] evaluates [len(self.knowledge_chunks)]. *)
Definition select_chunks (data : json) : result json :=
  match data with
  | JList _ => Ok data
  | JDict d =>
    let knowledge_chunks := json_get d (u "chunks") (JList []) in
    if has_len knowledge_chunks then Ok knowledge_chunks else Raise TypeError
  | _ => Raise AttributeError
  end.

(** The branch of the [try] block for a path that exists. *)
Definition read_corpus (w : world) (knowledge_base_path : pystr) : result json :=
  match read_json w knowledge_base_path with
  | Raise e => Raise e
  | Ok data => select_chunks data
  end.

(** The [try] block of [load_knowledge_base]. *)
Definition try_load (w : world) (knowledge_base_path : pystr)
  : result (world * json) :=
  if path_exists w knowledge_base_path then
    match read_corpus w knowledge_base_path with
    | Raise e => Raise e
    | Ok knowledge_chunks => Ok (w, knowledge_chunks)
    end
  else create_sample_knowledge_base w knowledge_base_path.

(** [load_knowledge_base]: the file system afterwards and
    [self.knowledge_chunks], or the exception that leaves the method.
    [except Exception] runs [_create_sample_knowledge_base] unguarded.
    The diagnostic [print]s are left out. *)
Definition load_knowledge_base (w : world) (knowledge_base_path : pystr)
  : result (world * json) :=
  match try_load w knowledge_base_path with
  | Ok r => Ok r
  | Raise _ => create_sample_knowledge_base w knowledge_base_path
  end.


(** A file system with nothing in it where everything is allowed, and one
    where nothing may be written. *)
Definition empty_world : world :=
  {| files := fun _ => None;
     can_makedirs := fun _ => true;
     can_write := fun _ => true |}.


(** The runtime on ASCII text: case and word characters of ASCII, the
    matching blocks of [difflib], a set listed by first occurrences. *)
#[export] Program Instance ascii_runtime : PyRuntime := {|
  lower := map ascii_lower_cp;
  isword := ascii_isword;
  matching_size := difflib_matches;
  set_order := first_seen
|}.
Next Obligation. destruct s; simpl; split; congruence. Qed.
Next Obligation.
  rewrite map_map. apply map_ext. intros c. unfold ascii_lower_cp.
  destruct ((65 <=? c) && (c <=? 90))%N eqn:E; [|now rewrite E].
  apply andb_true_iff in E. destruct E as [E1 E2].
  apply N.leb_le in E1. apply N.leb_le in E2.
  replace (c + 32 <=? 90)%N with false by (symmetry; apply N.leb_gt; lia).
  now rewrite andb_false_r.
Qed.
Next Obligation.
  induction l as [|y l IH]; simpl; constructor.
  - rewrite filter_In, negb_true_iff. unfold pystr_eqb.
    destruct (list_eq_dec N.eq_dec y y); [intros [_ H]; discriminate H|congruence].
  - now apply NoDup_filter.
Qed.
Next Obligation.
  induction l as [|y l IH]; simpl; [tauto|].
  rewrite filter_In, IH, negb_true_iff. unfold pystr_eqb.
  destruct (list_eq_dec N.eq_dec y x); intuition congruence.
Qed.

(* ================================================================== *)
(** * Predicates on floats used in the proofs *)
(* ================================================================== *)



(** Positive and no NaN: finite and above zero, or the positive infinity. *)
Definition fpos (x : float) : Prop :=
  match x with
  | S754_finite false _ _ | S754_infinity false => True
  | _ => False
  end.

(** On positive floats the comparison is lexicographic. *)
Definition fcode (x : float) : Z * Z * Z :=
  match x with
  | S754_finite _ m e => (0, e, Zpos m)%Z
  | _ => (1, 0, 0)%Z
  end.

Definition lexlt (a b : Z * Z * Z) : Prop :=
  let '(a1, a2, a3) := a in
  let '(b1, b2, b3) := b in
  (a1 < b1 \/ (a1 = b1 /\ (a2 < b2 \/ (a2 = b2 /\ a3 < b3))))%Z.

(** [x == y] on floats. *)
Definition feq (x y : float) : bool := SFeqb x y.


(* ================================================================== *)
(** * The specification's words *)
(* ================================================================== *)

(** Ranking of corpus positions under a key: [i] comes before [j] when its
    key is greater, or equal with [i] the smaller position. *)
Definition before (key : nat -> float) (i j : nat) : Prop :=
  fgt (key i) (key j) = true \/ (feq (key i) (key j) = true /\ i < j).

(** The total length of a list of blocks. *)
Definition sum_len (parts : list pystr) : Z :=
  fold_right (fun p acc => (len p + acc)%Z) 0%Z parts.

(** Greedy inclusion of whole blocks within a budget: [included] is a
    prefix of [blocks], it fits in [max_length], and the block after it, if
    any, would not fit. *)
Definition greedy_spec (blocks : list pystr) (max_length : Z)
           (included : list pystr) : Prop :=
  exists n : nat,
    n <= length blocks /\
    included = firstn n blocks /\
    (sum_len included <= max_length)%Z /\
    (n < length blocks ->
     (max_length < sum_len included + len (nth n blocks []))%Z).

Section Spec.
Context {py : PyRuntime}.




(** The score of the chunk at a position of the corpus. *)
Definition score_at (kc : list chunk) (query : pystr) (i : nat) : float :=
  total_score query (nth i kc []).

(** The positions that clear the relevance floor, in corpus order. *)
Definition passing (kc : list chunk) (query : pystr) : list nat :=
  filter (fun i => fgt (score_at kc query i) f0_1) (seq 0 (length kc)).

(** What the specification says of the result [r] of a search: at most
    [top_k] chunks; each one a chunk of the corpus that scores above 0.1;
    they are the chunks at some positions [idx] of the corpus, listed by
    decreasing score and, at equal scores, by increasing position; nothing
    on an empty corpus. *)
Definition search_spec (kc : list chunk) (query : pystr) (top_k : Z)
           (r : list chunk) : Prop :=
  (len r <= top_k)%Z /\
  (forall c, In c r -> In c kc /\ fgt (total_score query c) f0_1 = true) /\
  (exists idx : list nat,
      r = map (fun i => nth i kc []) idx /\
      Forall (fun i => i < length kc) idx /\
      StronglySorted (before (score_at kc query)) idx) /\
  (kc = [] -> r = []).

(** The formatted blocks of the ranked chunks, and the blocks that
    [get_context_for_query] keeps. *)
Definition ranked_blocks (kc : list chunk) (query : pystr) : list pystr :=
  map formatted_chunk (search_relevant_chunks kc query 3).

Definition included_blocks (kc : list chunk) (query : pystr)
           (max_context_length : Z) : list pystr :=
  context_loop (search_relevant_chunks kc query 3) max_context_length 0.

(** The chunk's chapter contains [chapter], case-insensitively. *)
Definition matches_chapter (chapter : pystr) (c : chunk) : bool :=
  str_in (lower chapter) (lower (get c k_chapter [])).

(** The topics in the words of the specification: the distinct subtopics of
    the chunks whose chapter matches, first occurrences in corpus order. *)
Definition topics_claimed (kc : list chunk) (chapter : pystr) : list pystr :=
  first_seen (map (fun c => get c k_subtopic [])
                  (filter (matches_chapter chapter) kc)).

(** The same for the non-empty subtopics only. *)
Definition topics_spec (kc : list chunk) (chapter : pystr) : list pystr :=
  first_seen
    (filter truthy
            (map (fun c => get c k_subtopic [])
                 (filter (matches_chapter chapter) kc))).
End Spec.



(* ================================================================== *)
(** * Example data *)
(* ================================================================== *)

(** Two chunks that both answer the query [a]. *)
Definition chunk_a : chunk := [(k_chunk, u "a")].
Definition chunk_b_a : chunk := [(k_chunk, u "b a")].
Definition two_chunks : list chunk := [chunk_a; chunk_b_a].

Definition electricity_topics : list pystr :=
  map u ["Electric Current"; "Electric Potential"; "Ohm's Law"; "Resistance";
         "Resistor Combinations"; "Electric Power"]%string.

(** A chunk whose chapter matches every query for [X] and whose subtopic is
    the empty string. *)
Definition unlabelled_chunk : chunk :=
  [(k_chunk, u "text"); (k_subtopic, []); (k_chapter, u "X")].

(** The chunk on Ohm's law of the default corpus. *)
Definition ohm_chunk : chunk := nth 9 sample_chunks [].

(** A chunk with a text and empty labels, and a corpus of four of them. *)
Definition bare_chunk : chunk :=
  [(k_chunk, u "Newton"); (k_subtopic, []); (k_chapter, [])].

Definition bare (text : string) : chunk :=
  [(k_chunk, u text); (k_subtopic, []); (k_chapter, [])].

Definition four_bare_chunks : list chunk :=
  [bare "Light"; bare "Sound"; bare "Heat"; bare "Force"].

(** Goals on the lexicographic codes of floats. *)
Ltac lex_solve :=
  repeat match goal with
         | |- context [fcode ?x] =>
           let a := fresh "a" in let b := fresh "b" in let c := fresh "c" in
           destruct (fcode x) as [[a b] c]
         | H : context [fcode ?x] |- _ =>
           let a := fresh "a" in let b := fresh "b" in let c := fresh "c" in
           destruct (fcode x) as [[a b] c]
         end;
  unfold lexlt in *; lia.

(* ================================================================== *)
(** * The tutor's side: [gemini_utils.py] and [utils.py] *)
(* ================================================================== *)

(** ** The knowledge base of [GeminiAI] *)


Section RagContext.
Context {py : PyRuntime}.

End RagContext.

(** ** Integers in f-strings *)

(** [str(i)] for an [int], as an f-string renders it: the decimal digits,
    after a minus sign below zero. *)
Fixpoint uint_digits (d : Decimal.uint) : pystr :=
  match d with
  | Decimal.Nil => []
  | Decimal.D0 r => 48%N :: uint_digits r
  | Decimal.D1 r => 49%N :: uint_digits r
  | Decimal.D2 r => 50%N :: uint_digits r
  | Decimal.D3 r => 51%N :: uint_digits r
  | Decimal.D4 r => 52%N :: uint_digits r
  | Decimal.D5 r => 53%N :: uint_digits r
  | Decimal.D6 r => 54%N :: uint_digits r
  | Decimal.D7 r => 55%N :: uint_digits r
  | Decimal.D8 r => 56%N :: uint_digits r
  | Decimal.D9 r => 57%N :: uint_digits r
  end.

Definition str_of_int (z : Z) : pystr :=
  match Z.to_int z with
  | Decimal.Pos d => uint_digits d
  | Decimal.Neg d => 45%N :: uint_digits d
  end.

(** ** [_fallback_physics_questions] *)

(** A question of the quiz: the [dict] with the keys [question],
    [options], [correct] and [explanation]. *)
Record quiz_question : Type := {
  question : pystr;
  options : list pystr;
  correct : Z;
  explanation : pystr
}.

(** The literal of [_fallback_physics_questions]. *)
Definition physics_questions : list quiz_question := [
    {| question := u "What is the SI unit of electric current?";
       options := [u "Volt (V)"; u "Ampere (A)"; u "Ohm (Ω)"; u "Watt (W)"];
       correct := 1;
       explanation := u "Ampere (A) is the SI unit of electric current, representing 1 coulomb of charge per second." |};
    {| question := u "Which type of mirror is used in car headlights?";
       options := [u "Plane mirror"; u "Concave mirror"; u "Convex mirror"; u "Cylindrical mirror"];
       correct := 1;
       explanation := u "Concave mirrors are used in headlights as they produce parallel beams of light when the bulb is at the focus." |};
    {| question := u "What is the power of a lens having focal length of 50 cm?";
       options := [u "+2 D"; u "-2 D"; u "+0.5 D"; u "+5 D"];
       correct := 0;
       explanation := u "Power P = 1/f (in meters) = 1/0.5 = +2 D. Convex lens has positive power." |};
    {| question := u "According to Ohm's law, if voltage doubles and resistance remains constant, current will:";
       options := [u "Remain same"; u "Double"; u "Become half"; u "Become four times"];
       correct := 1;
       explanation := u "From V = IR, if V doubles and R is constant, then I also doubles to maintain the relationship." |};
    {| question := u "The phenomenon of electromagnetic induction was discovered by:";
       options := [u "Newton"; u "Faraday"; u "Ohm"; u "Ampere"];
       correct := 1;
       explanation := u "Michael Faraday discovered electromagnetic induction in 1831." |};
    {| question := u "In series combination of resistors, which quantity remains same?";
       options := [u "Voltage"; u "Current"; u "Resistance"; u "Power"];
       correct := 1;
       explanation := u "In series combination, current remains same through all resistors as there is only one path." |};
    {| question := u "The angle of incidence is equal to angle of reflection. This is:";
       options := [u "First law of reflection"; u "Second law of reflection"; u "Snell's law"; u "Lens formula"];
       correct := 1;
       explanation := u "The second law of reflection states that angle of incidence equals angle of reflection." |};
    {| question := u "What happens to the resistance of a conductor when temperature increases?";
       options := [u "Increases"; u "Decreases"; u "Remains same"; u "Becomes zero"];
       correct := 0;
       explanation := u "For metallic conductors, resistance increases with increase in temperature due to increased atomic vibrations." |};
    {| question := u "The refractive index of water is 1.33. This means light in water travels at:";
       options := [u "Same speed as in air"; u "1.33 times faster than in air"; u "1.33 times slower than in air"; u "Infinite speed"];
       correct := 2;
       explanation := u "Refractive index n = c/v, where c is speed in vacuum and v is speed in medium. Higher n means slower speed." |};
    {| question := u "Electric power consumed by a device is measured in:";
       options := [u "Volt"; u "Ampere"; u "Watt"; u "Ohm"];
       correct := 2;
       explanation := u "Power is measured in Watts (W). Power P = VI = I²R = V²/R." |}
  ].

Section Quiz.
Context {py : PyRuntime}.

(** [isspace c] tells whether [str.split] takes [c] for white space. *)
Variable isspace : N -> bool.

(** [s.split()]: the maximal runs of characters that are no white space. *)
Definition split (s : pystr) : list pystr :=
  findall_words (fun c => negb (isspace c)) s.

(** The [any(...)] of the topic filter. *)
Definition matches_topic (topic_lower : pystr) (q : quiz_question) : bool :=
  existsb (fun keyword => str_in keyword (lower (question q))
                          || str_in keyword (lower (explanation q)))
          (split topic_lower).

(** [physics_questions] after the topic filter; [topic] is [None] by
    default, and [if topic] fails for [None] and for the empty string. *)
Definition select_questions (topic : option pystr) : list quiz_question :=
  match topic with
  | None | Some [] => physics_questions
  | Some t =>
    match filter (matches_topic (lower t)) physics_questions with
    | [] => physics_questions
    | filtered_questions => filtered_questions
    end
  end.

(** One turn of the last loop; [None] stands for an exception: the
    [ZeroDivisionError] of [i % 0] or an [IndexError]. *)
Definition question_at (pool : list quiz_question) (i : nat)
  : option quiz_question :=
  match length pool with
  | O => None
  | _ =>
    match nth_error pool (i mod length pool) with
    | None => None
    | Some q =>
      if length pool <=? i
      then Some {| question := u "[Q" ++ str_of_int (Z.of_nat i + 1) ++ u "] "
                                 ++ question q;
                   options := options q;
                   correct := correct q;
                   explanation := explanation q |}
      else Some q
    end
  end.

Fixpoint questions_loop (pool : list quiz_question) (indices : list nat)
  : option (list quiz_question) :=
  match indices with
  | [] => Some []
  | i :: rest =>
    match question_at pool i with
    | None => None
    | Some q =>
      match questions_loop pool rest with
      | None => None
      | Some questions => Some (q :: questions)
      end
    end
  end.

(** [_fallback_physics_questions(n, topic)]; [range(n)] is empty for
    [n <= 0]. *)
Definition fallback_physics_questions (n : Z) (topic : option pystr)
  : option (list quiz_question) :=
  questions_loop (select_questions topic) (seq 0 (Z.to_nat n)).
End Quiz.

(** White space of ASCII, as [str.split] sees it. *)
Definition ascii_isspace (c : N) : bool :=
  (((9 <=? c) && (c <=? 13)) || ((28 <=? c) && (c <=? 32)))%N.

(** ** [generate_quiz_questions]: from the model's answer to the quiz *)

(** The text from the first occurrence of [c] on. *)
Fixpoint from_first (c : N) (s : pystr) : option pystr :=
  match s with
  | [] => None
  | x :: r => if (x =? c)%N then Some s else from_first c r
  end.

(** The text up to the last occurrence of [c]. *)
Fixpoint upto_last (c : N) (s : pystr) : option pystr :=
  match s with
  | [] => None
  | x :: r =>
    match upto_last c r with
    | Some p => Some (x :: p)
    | None => if (x =? c)%N then Some [x] else None
    end
  end.

(** [re.search(r'\[.*\]', s, re.DOTALL)]: the match starts at the first
    opening bracket that a closing bracket follows, and the greedy [.*]
    takes it to the last closing bracket. *)
Definition search_brackets (s : pystr) : option pystr :=
  match from_first 91 s with
  | Some (x :: r) => option_map (cons x) (upto_last 93 r)
  | _ => None
  end.

(** [key in q] for a string [key]: a key of an object, an item of an
    array, a substring of a string; [None] stands for the [TypeError] on a
    value that is no container. *)
Definition json_contains (key : pystr) (q : json) : option bool :=
  match q with
  | JDict d => Some (existsb (fun kv => pystr_eqb (fst kv) key) d)
  | JList l => Some (existsb (fun x => match x with
                                       | JStr s => pystr_eqb s key
                                       | _ => false
                                       end) l)
  | JStr s => Some (str_in key s)
  | _ => None
  end.

(** [all(key in q for key in keys)], which stops at the first key that
    is not in [q]. *)
Fixpoint has_keys (keys : list pystr) (q : json) : option bool :=
  match keys with
  | [] => Some true
  | key :: rest =>
    match json_contains key q with
    | None => None
    | Some false => Some false
    | Some true => has_keys rest q
    end
  end.

Fixpoint json_find (d : list (pystr * json)) (key : pystr) : option json :=
  match d with
  | [] => None
  | (k, v) :: r => if pystr_eqb k key then Some v else json_find r key
  end.

(** [q[key]] for a string [key]: defined on an object that has the key. *)
Definition json_item (q : json) (key : pystr) : option json :=
  match q with
  | JDict d => json_find d key
  | _ => None
  end.

(** [len(v)]. *)
Definition json_len (v : json) : option Z :=
  match v with
  | JList l => Some (len l)
  | JDict d => Some (len d)
  | JStr s => Some (len s)
  | _ => None
  end.

Definition required_keys : list pystr :=
  [u "question"; u "options"; u "correct"].

(** The test of the validation loop on one question. *)
Definition valid_question (q : json) : option bool :=
  match has_keys required_keys q with
  | None => None
  | Some false => Some false
  | Some true =>
    match json_item q (u "options") with
    | None => None
    | Some opts =>
      match json_len opts with
      | None => None
      | Some k => Some (k =? 4)%Z
      end
    end
  end.

(** The validation loop: [valid_questions]. *)
Fixpoint validate (questions valid_questions : list json) : option (list json) :=
  match questions with
  | [] => Some valid_questions
  | q :: rest =>
    match valid_question q with
    | None => None
    | Some true => validate rest (valid_questions ++ [q])
    | Some false => validate rest valid_questions
    end
  end.

(** What the [try] block returns from the model's answer; [None] when it
    reaches its last line or raises, the two cases where the fallback
    questions are returned. *)
Definition questions_of_response (response_text : pystr) (n : Z)
  : option (list json) :=
  match search_brackets response_text with
  | None => None
  | Some json_text =>
    match json_loads json_text with
    | Some (JList (q :: rest)) =>
      match validate (q :: rest) [] with
      | Some (v :: valid_questions) => Some (slice_to n (v :: valid_questions))
      | _ => None
      end
    | _ => None
    end
  end.

(** A fallback question as the [dict] it is. *)
Definition question_json (q : quiz_question) : json :=
  JDict [(u "question", JStr (question q));
         (u "options", JList (map JStr (options q)));
         (u "correct", JInt (correct q));
         (u "explanation", JStr (explanation q))].

Section GenerateQuiz.
Context {py : PyRuntime}.
Variable isspace : N -> bool.

(** [generate_quiz_questions], given what [_safe_call] returned:
    [response] is [None] when the lookup of the context or the call of the
    model raised, or when the answer is no string.  The result is [None]
    when an exception leaves the method. *)
Definition generate_quiz_questions (response : option pystr) (n : Z)
           (topic : option pystr) : option (list json) :=
  let fallback :=
    option_map (map question_json) (fallback_physics_questions isspace n topic) in
  match response with
  | None => fallback
  | Some response_text =>
    match questions_of_response response_text n with
    | Some questions => Some questions
    | None => fallback
    end
  end.
End GenerateQuiz.

(** ** [get_focus_areas] *)

(** The bounds 40, 60 and 80, as the floats the scores are compared with. *)
Definition f40 : float := S754_finite false 5629499534213120 (-47).
Definition f60 : float := S754_finite false 8444249301319680 (-47).
Definition f80 : float := S754_finite false 5629499534213120 (-46).

(** A row of the dashboard query: the chapter, which the table allows to
    be [NULL], the average of the scores, a float since the scores are
    integers that are never [NULL], and the number of quizzes. *)
Definition performance_row : Type := option pystr * float * Z.

(** A chapter as an f-string shows it. *)
Definition subject_text (subject : option pystr) : pystr :=
  match subject with
  | Some s => s
  | None => u "None"
  end.

Definition first_quiz_tips : list pystr :=
  [u "🎯 Take your first Physics quiz to get personalized recommendations!";
   u "💡 Start with Light - Reflection and Refraction chapter";
   u "⚡ Practice basic Electricity concepts and Ohm's law";
   u "🧲 Explore Magnetic Effects of Electric Current"].

Definition recommendation : pystr :=
  u "📚 **Recommendation**: Revise NCERT examples and practice more numericals".

Section FocusAreas.
(** [format_1f x] is [f"{x:.1f}"]. *)
Variable format_1f : float -> pystr.

(** The line of one row. *)
Definition focus_line (row : performance_row) : pystr :=
  let '(subject, avg_score, _) := row in
  if flt avg_score f40 then
    u "🔴 **" ++ subject_text subject ++ u "**: Urgent attention needed! (Score: "
      ++ format_1f avg_score ++ u "%) - Review basic concepts daily"
  else if flt avg_score f60 then
    u "🟡 **" ++ subject_text subject ++ u "**: Need more practice (Score: "
      ++ format_1f avg_score ++ u "%) - Focus on numerical problems"
  else if flt avg_score f80 then
    u "🟢 **" ++ subject_text subject ++ u "**: Good progress! (Score: "
      ++ format_1f avg_score ++ u "%) - Polish advanced topics"
  else
    u "⭐ **" ++ subject_text subject ++ u "**: Excellent work! (Score: "
      ++ format_1f avg_score ++ u "%) - Try challenging problems".

(** [get_focus_areas(quiz_performance, subjects)]; [subjects] is not used,
    and on rows of this type nothing in the [try] block raises. *)
Definition get_focus_areas (quiz_performance : list performance_row)
  : list pystr :=
  match quiz_performance with
  | [] => first_quiz_tips
  | _ =>
    let focus_areas := map focus_line quiz_performance in
    let focus_areas :=
      if existsb (fun row => flt (snd (fst row)) f60) quiz_performance
      then focus_areas ++ [recommendation] else focus_areas in
    slice_to 5 focus_areas
  end.
End FocusAreas.

(** ** [format_study_time] of [utils.py], on an [int] *)
Definition format_study_time (minutes : Z) : pystr :=
  if (minutes <? 60)%Z then str_of_int minutes ++ u " minutes"
  else if (minutes <? 1440)%Z then
    let hours := (minutes / 60)%Z in
    let mins := (minutes mod 60)%Z in
    if (mins >? 0)%Z
    then str_of_int hours ++ u "h " ++ str_of_int mins ++ u "m"
    else str_of_int hours ++ u "h"
  else
    let days := (minutes / 1440)%Z in
    let hours := ((minutes mod 1440) / 60)%Z in
    if (hours >? 0)%Z
    then str_of_int days ++ u "d " ++ str_of_int hours ++ u "h"
    else str_of_int days ++ u "d".

(** ** Words used in the statements *)

(** The question [q] is what turn [i] of the last loop of
    [_fallback_physics_questions] makes of the pool: the question [base]
    at position [i] modulo the size of the pool, with the same options,
    answer and explanation, its text marked with the turn once the pool has
    been used up. *)
Definition turn_of (pool : list quiz_question) (i : nat) (q base : quiz_question)
  : Prop :=
  nth_error pool (i mod length pool) = Some base /\
  options q = options base /\ correct q = correct base /\
  explanation q = explanation base /\
  question q = if i <? length pool then question base
               else u "[Q" ++ str_of_int (Z.of_nat i + 1) ++ u "] "
                      ++ question base.

(** A question that the quiz page can show: the three keys are there and
    there are four options. *)
Definition well_formed_question (q : json) : Prop :=
  has_keys required_keys q = Some true /\
  exists opts, json_item q (u "options") = Some opts /\ json_len opts = Some 4%Z.

(** No string occurs twice. *)
Fixpoint distinctb (l : list pystr) : bool :=
  match l with
  | [] => true
  | x :: r => negb (mem x r) && distinctb r
  end.

(** ** More example data *)



(** A chunk that has nothing in common with the query [a]. *)
Definition far_chunk : chunk := bare "zzz".

(** Twelve fallback questions on no topic, and three on Ohm. *)
Definition twelve_questions : list quiz_question :=
  match fallback_physics_questions (py := ascii_runtime) ascii_isspace 12 None with
  | Some questions => questions
  | None => []
  end.

Definition ohm_questions : list quiz_question :=
  match fallback_physics_questions (py := ascii_runtime) ascii_isspace 3
                                   (Some (u "Ohm")) with
  | Some questions => questions
  | None => []
  end.

(* ================================================================== *)
(** * Equality of strings *)
(* ================================================================== *)

Lemma pystr_eqb_eq (s t : pystr) : pystr_eqb s t = true <-> s = t.
Proof.
  unfold pystr_eqb. destruct (list_eq_dec N.eq_dec s t); split; congruence.
Qed.

Lemma pystr_eqb_refl (s : pystr) : pystr_eqb s s = true.
Proof. now apply pystr_eqb_eq. Qed.

Lemma pystr_eqb_neq (s t : pystr) : pystr_eqb s t = false <-> s <> t.
Proof.
  unfold pystr_eqb. destruct (list_eq_dec N.eq_dec s t); split; congruence.
Qed.

(* ================================================================== *)
(** * The matching blocks are always found *)
(* ================================================================== *)

Section DifflibFacts.
Variables a b : pystr.

Lemma j2len_get_bound (j2len : list (nat * nat)) (bound j : nat) :
  Forall (fun e => snd e <= bound) j2len -> j2len_get j2len j <= bound.
Proof.
  induction j2len as [|[j' k] d IH]; simpl; intros H; [lia|].
  inversion H; subst. destruct (j' =? j)%nat; auto.
Qed.

(** Along a row the lengths recorded and the best match stay within the
    range of [a] under examination. *)
Lemma row_loop_bounds (alo ahi i blo bhi : nat) (j2len : list (nat * nat))
      (js : list nat) :
  alo <= i -> i < ahi ->
  Forall (fun e => snd e <= i - alo) j2len ->
  forall newj2len best,
    Forall (fun e => snd e <= i + 1 - alo) newj2len ->
    alo <= fst (fst best) /\ fst (fst best) + snd best <= ahi ->
    let r := row_loop i blo bhi j2len js newj2len best in
    Forall (fun e => snd e <= i + 1 - alo) (fst r) /\
    alo <= fst (fst (snd r)) /\ fst (fst (snd r)) + snd (snd r) <= ahi.
Proof.
  intros Hi Hahi Hj. induction js as [|j js IH]; intros newj2len best Hn Hb.
  - simpl. auto.
  - cbn [row_loop]. destruct (j <? blo)%nat; [now apply IH|].
    destruct (bhi <=? j)%nat; [simpl; auto|].
    destruct best as [[bi bj] bs]. cbn [fst snd] in Hb.
    set (k := (match j with 0 => 0 | S j' => j2len_get j2len j' end + 1)%nat).
    assert (Hk : k <= i + 1 - alo).
    { subst k. destruct j as [|j']; [lia|].
      pose proof (j2len_get_bound j' Hj). lia. }
    assert (Hk1 : 1 <= k) by (subst k; lia).
    apply IH.
    + constructor; [exact Hk|exact Hn].
    + destruct (bs <? k)%nat; cbn [fst snd]; lia.
Qed.

Lemma rows_fold_bounds (alo ahi blo bhi : nat) :
  forall n s st,
    alo <= s -> s + n <= ahi ->
    Forall (fun e => snd e <= s - alo) (fst st) ->
    alo <= fst (fst (snd st)) /\ fst (fst (snd st)) + snd (snd st) <= ahi ->
    let r := fold_left
               (fun (st : list (nat * nat) * (nat * nat * nat)) i =>
                  row_loop i blo bhi (fst st) (b2j_get b (nth i a 0%N)) []
                           (snd st))
               (seq s n) st in
    alo <= fst (fst (snd r)) /\ fst (fst (snd r)) + snd (snd r) <= ahi.
Proof.
  induction n as [|n IH]; intros s st Hs Hn Hj Hb; [exact Hb|].
  cbn [seq fold_left].
  destruct (@row_loop_bounds alo ahi s blo bhi (fst st)
                             (b2j_get b (nth s a 0%N)) Hs ltac:(lia) Hj []
                             (snd st) (Forall_nil _) Hb) as [H1 H2].
  apply IH; try lia; try exact H2.
  replace (S s - alo) with (s + 1 - alo) by lia. exact H1.
Qed.

Lemma rows_bounds (alo ahi blo bhi : nat) :
  alo <= ahi ->
  let r := rows a b alo ahi blo bhi in
  alo <= fst (fst r) /\ fst (fst r) + snd r <= ahi.
Proof.
  intros H. unfold rows.
  apply (@rows_fold_bounds alo ahi blo bhi (ahi - alo) alo ([], (alo, blo, 0)));
    cbn [fst snd]; try lia.
  constructor.
Qed.

Lemma extend_left_bounds (alo ahi blo : nat) :
  forall besti bestj bestsize,
    alo <= besti -> besti + bestsize <= ahi ->
    let r := extend_left a b alo blo besti bestj bestsize in
    alo <= fst (fst r) /\ fst (fst r) + snd r <= ahi.
Proof.
  induction besti as [|besti IH]; intros bestj bestsize H1 H2; cbn [extend_left].
  - cbn [fst snd]. lia.
  - destruct ((alo <? S besti)%nat && (blo <? bestj)%nat
              && (nth besti a 0 =? nth (bestj - 1) b 0)%N) eqn:E.
    + apply andb_true_iff in E. destruct E as [E _].
      apply andb_true_iff in E. destruct E as [E _].
      apply Nat.ltb_lt in E. apply IH; lia.
    + cbn [fst snd]. lia.
Qed.

Lemma extend_right_bounds (ahi bhi besti bestj : nat) :
  forall room bestsize,
    besti + bestsize <= ahi ->
    besti + extend_right a b room ahi bhi besti bestj bestsize <= ahi.
Proof.
  induction room as [|room IH]; intros bestsize H; cbn [extend_right]; [lia|].
  destruct ((besti + bestsize <? ahi)%nat && (bestj + bestsize <? bhi)%nat
            && (nth (besti + bestsize) a 0 =? nth (bestj + bestsize) b 0)%N)
           eqn:E; [|lia].
  apply andb_true_iff in E. destruct E as [E _].
  apply andb_true_iff in E. destruct E as [E _].
  apply Nat.ltb_lt in E. apply IH. lia.
Qed.

Lemma find_longest_match_bounds (alo ahi blo bhi : nat) :
  alo <= ahi ->
  let r := find_longest_match a b alo ahi blo bhi in
  alo <= fst (fst r) /\ fst (fst r) + snd r <= ahi.
Proof.
  intros H. unfold find_longest_match.
  pose proof (rows_bounds blo bhi H) as Hr.
  destruct (rows a b alo ahi blo bhi) as [[i0 j0] k0]. cbn [fst snd] in Hr.
  pose proof (@extend_left_bounds alo ahi blo i0 j0 k0 (proj1 Hr) (proj2 Hr))
    as Hl.
  destruct (extend_left a b alo blo i0 j0 k0) as [[i j] k1]. cbn [fst snd] in *.
  split; [lia|]. apply extend_right_bounds. lia.
Qed.

(** The work left in a queue of ranges. *)
Lemma blocks_loop_total :
  forall fuel queue blocks,
    Forall (fun q : nat * nat * nat * nat =>
              fst (fst (fst q)) <= snd (fst (fst q))) queue ->
    fold_right (fun q acc =>
                  2 * (snd (fst (fst q)) - fst (fst (fst q))) + 1 + acc) 0 queue
    <= fuel ->
    blocks_loop a b fuel queue blocks <> None.
Proof.
  induction fuel as [|fuel IH]; intros queue blocks Hwf Hw.
  - destruct queue as [|[[[alo ahi] blo] bhi] queue]; [discriminate|].
    cbn [fold_right fst snd] in Hw. lia.
  - destruct queue as [|[[[alo ahi] blo] bhi] queue]; [discriminate|].
    cbn [blocks_loop]. inversion Hwf as [|? ? Hq Hwf']; subst.
    cbn [fold_right fst snd] in Hw, Hq.
    pose proof (find_longest_match_bounds blo bhi Hq) as Hb.
    destruct (find_longest_match a b alo ahi blo bhi) as [[i j] k].
    cbn [fst snd] in Hb.
    destruct k as [|k]; [apply IH; [assumption|lia]|].
    apply IH.
    + destruct ((i + S k <? ahi)%nat && (j + S k <? bhi)%nat) eqn:E2;
        destruct ((alo <? i)%nat && (blo <? j)%nat) eqn:E1;
        repeat constructor; cbn [fst snd]; auto; lia.
    + destruct ((i + S k <? ahi)%nat && (j + S k <? bhi)%nat) eqn:E2;
        destruct ((alo <? i)%nat && (blo <? j)%nat) eqn:E1;
        cbn [fold_right fst snd]; lia.
Qed.

(** [get_matching_blocks] never runs out of fuel. *)
Lemma get_matching_blocks_total :
  exists blocks, get_matching_blocks a b = Some blocks.
Proof.
  unfold get_matching_blocks.
  destruct (blocks_loop a b (2 * length a + 1) [(0, length a, 0, length b)] [])
    as [blocks|] eqn:E; [eauto|].
  exfalso. revert E. apply blocks_loop_total.
  - repeat constructor. cbn [fst snd]. lia.
  - cbn [fold_right fst snd]. lia.
Qed.
End DifflibFacts.

(* ================================================================== *)
(** * Facts about binary64 arithmetic *)
(* ================================================================== *)



Lemma iter_pos_inv (A : Type) (f : A -> A) (P : A -> Prop) :
  (forall x, P x -> P (f x)) -> forall n x, P x -> P (iter_pos f n x).
Proof. intros Hf n. induction n; intros x Hx; simpl; auto. Qed.

Lemma shr_1_nonneg (r : shr_record) :
  (0 <= shr_m r)%Z -> (0 <= shr_m (shr_1 r))%Z.
Proof.
  destruct r as [m r s]. simpl.
  destruct m as [|p|p]; [| destruct p | destruct p]; simpl; lia.
Qed.

Lemma shr_record_of_loc_m (m : Z) (l : location) :
  shr_m (shr_record_of_loc m l) = m.
Proof. destruct l as [|[]]; reflexivity. Qed.








(** ** Conversion of a positive [int] *)

Lemma fexp_eq (x : Z) : fexp prec emax x = Z.max (x - 53) (-1074).
Proof. reflexivity. Qed.

Lemma digits2_pos_bounds (p : positive) :
  (2 ^ (Zpos (digits2_pos p) - 1) <= Zpos p < 2 ^ Zpos (digits2_pos p))%Z.
Proof.
  induction p as [p IH|p IH|]; simpl digits2_pos.
  - rewrite Pos2Z.inj_succ.
    replace (Z.succ (Zpos (digits2_pos p)) - 1)%Z
      with (Z.succ (Zpos (digits2_pos p) - 1)) by lia.
    rewrite !Z.pow_succ_r by lia. lia.
  - rewrite Pos2Z.inj_succ.
    replace (Z.succ (Zpos (digits2_pos p)) - 1)%Z
      with (Z.succ (Zpos (digits2_pos p) - 1)) by lia.
    rewrite !Z.pow_succ_r by lia. lia.
  - simpl. lia.
Qed.

Lemma Zdigits2_log2 (m : Z) : (0 < m)%Z -> Zdigits2 m = (Z.log2 m + 1)%Z.
Proof.
  destruct m as [|p|p]; try lia. intros _.
  change (Zdigits2 (Zpos p)) with (Zpos (digits2_pos p)).
  assert (Z.log2 (Zpos p) = Zpos (digits2_pos p) - 1)%Z; [|lia].
  apply Z.log2_unique; [lia|].
  replace (Z.succ (Zpos (digits2_pos p) - 1)) with (Zpos (digits2_pos p)) by lia.
  apply digits2_pos_bounds.
Qed.

Lemma shr_1_div2 (r : shr_record) :
  (0 <= shr_m r)%Z -> shr_m (shr_1 r) = (shr_m r / 2)%Z.
Proof.
  destruct r as [m r s]. simpl. intros Hm.
  rewrite <- Z.div2_div.
  destruct m as [|p|p]; [| destruct p | lia]; reflexivity.
Qed.

Lemma iter_shr_1_div (n : positive) :
  forall r, (0 <= shr_m r)%Z ->
            shr_m (iter_pos shr_1 n r) = (shr_m r / 2 ^ Zpos n)%Z.
Proof.
  induction n as [n IH|n IH|]; intros r Hr; simpl iter_pos.
  - rewrite IH, IH, shr_1_div2; auto using shr_1_nonneg.
    + rewrite !Z.div_div by lia. f_equal.
      replace (Zpos n~1) with (1 + Zpos n + Zpos n)%Z by lia.
      rewrite !Z.pow_add_r by lia. lia.
    + apply iter_pos_inv; auto using shr_1_nonneg.
  - rewrite IH, IH; auto.
    + rewrite !Z.div_div by lia. f_equal.
      replace (Zpos n~0) with (Zpos n + Zpos n)%Z by lia.
      rewrite !Z.pow_add_r by lia. lia.
    + apply iter_pos_inv; auto using shr_1_nonneg.
  - rewrite shr_1_div2; auto.
Qed.

(** A right shift that the format asks for keeps a positive mantissa
    positive and the sum of its width and the exponent. *)
Lemma shr_fexp_pos (m e : Z) (l : location) :
  (0 < m)%Z -> (-1074 < Zdigits2 m + e)%Z ->
  let re := shr_fexp prec emax m e l in
  (0 < shr_m (fst re))%Z /\
  (Zdigits2 (shr_m (fst re)) + snd re = Zdigits2 m + e)%Z /\
  snd re = Z.max e (fexp prec emax (Zdigits2 m + e)).
Proof.
  intros Hm Hd. unfold shr_fexp, shr. rewrite fexp_eq.
  destruct (Z.max (Zdigits2 m + e - 53) (-1074) - e)%Z as [|n|n] eqn:En;
    simpl fst; simpl snd; rewrite ?shr_record_of_loc_m.
  - repeat split; lia.
  - rewrite iter_shr_1_div by (rewrite shr_record_of_loc_m; lia).
    rewrite shr_record_of_loc_m.
    rewrite (Zdigits2_log2 Hm) in *.
    assert (Hlt : (Zpos n <= Z.log2 m)%Z) by lia.
    rewrite <- Z.shiftr_div_pow2 by lia.
    assert (Hpos : (0 < Z.shiftr m (Zpos n))%Z).
    { rewrite Z.shiftr_div_pow2 by lia.
      apply Z.div_str_pos. split; [lia|].
      apply Z.le_trans with (2 ^ Z.log2 m)%Z.
      - apply Z.pow_le_mono_r; lia.
      - apply Z.log2_spec. lia. }
    repeat split; [assumption| |lia].
    rewrite (Zdigits2_log2 Hpos), Z.log2_shiftr by lia. lia.
  - repeat split; lia.
Qed.

Lemma Zdigits2_round (m : Z) (l : location) :
  (0 < m)%Z ->
  (0 < round_nearest_even m l)%Z /\
  (Zdigits2 m <= Zdigits2 (round_nearest_even m l) <= Zdigits2 m + 1)%Z.
Proof.
  intros Hm.
  assert (Hr : round_nearest_even m l = m \/ round_nearest_even m l = Z.succ m).
  { destruct l as [|[]]; simpl; auto. destruct (Z.even m); auto. }
  destruct Hr as [-> | ->]; [lia|].
  split; [lia|]. rewrite !Zdigits2_log2 by lia.
  pose proof (Z.log2_succ_le m). pose proof (Z.log2_le_mono m (Z.succ m)). lia.
Qed.

(** Rounding a positive mantissa gives a positive number, finite when the
    exponents stay in range. *)
Lemma binary_round_aux_pos (sx : bool) (mx ex : Z) (lx : location) :
  (0 < mx)%Z -> (-1074 < Zdigits2 mx + ex)%Z ->
  (binary_round_aux prec emax sx mx ex lx = S754_infinity sx \/
   exists m e, binary_round_aux prec emax sx mx ex lx = S754_finite sx m e) /\
  ((ex <= 971)%Z -> (Zdigits2 mx + ex <= 1023)%Z ->
   exists m e, binary_round_aux prec emax sx mx ex lx = S754_finite sx m e).
Proof.
  intros Hm Hd. unfold binary_round_aux.
  destruct (shr_fexp_pos ex lx Hm Hd) as (H1 & H2 & H3).
  destruct (shr_fexp prec emax mx ex lx) as [mrs' e']. simpl in H1, H2, H3.
  destruct (Zdigits2_round (loc_of_shr_record mrs') H1) as (R1 & R2).
  set (m2 := round_nearest_even (shr_m mrs') (loc_of_shr_record mrs')) in *.
  assert (Hd2 : (-1074 < Zdigits2 m2 + e')%Z) by lia.
  destruct (shr_fexp_pos e' loc_Exact R1 Hd2) as (K1 & K2 & K3).
  destruct (shr_fexp prec emax m2 e' loc_Exact) as [mrs'' e''].
  simpl in K1, K2, K3. rewrite fexp_eq in H3, K3.
  destruct (shr_m mrs'') as [|m3|m3]; try lia.
  split.
  - destruct (e'' <=? emax - prec)%Z; eauto.
  - intros He Hde.
    assert ((e'' <=? emax - prec)%Z = true) as ->
        by (apply Z.leb_le; unfold emax, prec; lia).
    eauto.
Qed.

Lemma digits2_pos_iter_xO (p k : positive) :
  digits2_pos (Pos.iter xO p k) = (digits2_pos p + k)%positive.
Proof.
  induction k as [|k IH] using Pos.peano_ind.
  - simpl. lia.
  - rewrite Pos.iter_succ. simpl. rewrite IH. lia.
Qed.

Lemma float_of_int_pos (z : Z) :
  (0 < z)%Z ->
  (float_of_int z = S754_infinity false \/
   exists m e, float_of_int z = S754_finite false m e) /\
  ((z < 2 ^ 1023)%Z -> exists m e, float_of_int z = S754_finite false m e).
Proof.
  destruct z as [|p|p]; try lia. intros _.
  unfold float_of_int, binary_normalize, binary_round, shl_align.
  rewrite fexp_eq.
  pose proof (digits2_pos_bounds p) as Hb.
  assert (Hsmall : (Zpos p < 2 ^ 1023 -> Zpos (digits2_pos p) <= 1023)%Z).
  { intros Hlt. destruct (Z.le_gt_cases (Zpos (digits2_pos p)) 1023); auto.
    exfalso.
    assert (2 ^ 1023 <= 2 ^ (Zpos (digits2_pos p) - 1))%Z
      by (apply Z.pow_le_mono_r; lia).
    lia. }
  destruct (Z.max (Zpos (digits2_pos p) + 0 - 53) (-1074) - 0)%Z
    as [|k|k] eqn:Ek.
  - pose proof (@binary_round_aux_pos false (Zpos p) 0 loc_Exact) as H.
    simpl Zdigits2 in H. destruct H as [A B]; try lia.
    split; [exact A|]. intros Hlt. apply B; lia.
  - pose proof (@binary_round_aux_pos false (Zpos p) 0 loc_Exact) as H.
    simpl Zdigits2 in H. destruct H as [A B]; try lia.
    split; [exact A|]. intros Hlt. apply B; lia.
  - pose proof (@binary_round_aux_pos false (Zpos (Pos.iter xO p k))
                  (Z.max (Zpos (digits2_pos p) + 0 - 53) (-1074)) loc_Exact)
      as H.
    simpl Zdigits2 in H. rewrite digits2_pos_iter_xO in H.
    destruct H as [A B]; try lia.
    split; [exact A|]. intros Hlt. apply B; lia.
Qed.

(** ** The order on positive floats *)

Lemma flt_pos_spec (x y : float) :
  fpos x -> fpos y -> (flt x y = true <-> lexlt (fcode x) (fcode y)).
Proof.
  destruct x as [sx|[|]| |[|] mx ex]; simpl; try contradiction;
    destruct y as [sy|[|]| |[|] my ey]; simpl; try contradiction;
      intros _ _; unfold flt, SFltb, SFcompare;
        try (split; [discriminate|lia]); try (split; [lia|reflexivity]).
  change (Pos.compare_cont Eq mx my) with (Pos.compare mx my).
  destruct (Z.compare_spec ex ey); destruct (Pos.compare_spec mx my);
    split; intros; try discriminate; try reflexivity; try lia.
Qed.

Lemma fgt_pos_spec (x y : float) :
  fpos x -> fpos y -> (fgt x y = true <-> lexlt (fcode y) (fcode x)).
Proof.
  destruct x as [sx|[|]| |[|] mx ex]; simpl; try contradiction;
    destruct y as [sy|[|]| |[|] my ey]; simpl; try contradiction;
      intros _ _; unfold fgt, SFcompare;
        try (split; [discriminate|lia]); try (split; [lia|reflexivity]).
  change (Pos.compare_cont Eq mx my) with (Pos.compare mx my).
  destruct (Z.compare_spec ex ey); destruct (Pos.compare_spec mx my);
    split; intros; try discriminate; try reflexivity; try lia.
Qed.

Lemma fge_pos_spec (x y : float) :
  fpos x -> fpos y -> (fge x y = true <-> ~ lexlt (fcode x) (fcode y)).
Proof.
  destruct x as [sx|[|]| |[|] mx ex]; simpl; try contradiction;
    destruct y as [sy|[|]| |[|] my ey]; simpl; try contradiction;
      intros _ _; unfold fge, SFcompare;
        try (split; [discriminate|lia]); try (split; [lia|reflexivity]).
  change (Pos.compare_cont Eq mx my) with (Pos.compare mx my).
  destruct (Z.compare_spec ex ey); destruct (Pos.compare_spec mx my);
    split; intros; try discriminate; try reflexivity; try lia.
Qed.

Lemma fgt_pos (x : float) : fgt x f0_1 = true -> fpos x.
Proof. destruct x as [s|[|]| |[|] m e]; simpl; auto; discriminate. Qed.

(** ** The ratio *)
Section RatioFacts.
Context {py : PyRuntime}.



Lemma ratio_nil_nil : ratio [] [] = f1_0.
Proof. reflexivity. Qed.

Lemma ratio_nil_l (b : pystr) : b <> [] -> ratio [] b = f0.
Proof.
  intros Hb. unfold ratio. rewrite matching_size_nil.
  unfold calculate_ratio, len.
  destruct b as [|c b]; [congruence|].
  replace (Z.of_nat (length (@nil N)) + Z.of_nat (length (c :: b)) =? 0)%Z
    with false by (symmetry; apply Z.eqb_neq; simpl length; lia).
  destruct (@float_of_int_pos (Z.of_nat (length (@nil N))
                               + Z.of_nat (length (c :: b)))) as [F _];
    [simpl length; lia|].
  destruct F as [->|(m & e & ->)]; reflexivity.
Qed.
End RatioFacts.

(* ================================================================== *)
(** * The relevance score *)
(* ================================================================== *)

Section ScoreFacts.
Context {py : PyRuntime}.







End ScoreFacts.

(* ================================================================== *)
(** * The ranking *)
(* ================================================================== *)

Lemma feq_pos_spec (x y : float) :
  fpos x -> fpos y ->
  (feq x y = true <-> ~ lexlt (fcode x) (fcode y) /\ ~ lexlt (fcode y) (fcode x)).
Proof.
  destruct x as [sx|[|]| |[|] mx ex]; simpl; try contradiction;
    destruct y as [sy|[|]| |[|] my ey]; simpl; try contradiction;
      intros _ _; unfold feq, SFeqb, SFcompare;
        try (split; [discriminate|lia]); try (split; [lia|reflexivity]).
  change (Pos.compare_cont Eq mx my) with (Pos.compare mx my).
  destruct (Z.compare_spec ex ey); destruct (Pos.compare_spec mx my);
    split; intros; try discriminate; try reflexivity; try lia.
Qed.

Lemma Forall_perm (A : Type) (P : A -> Prop) (l l' : list A) :
  Permutation l l' -> Forall P l -> Forall P l'.
Proof.
  intros Hp H. rewrite Forall_forall in *. intros x Hx.
  apply H. eapply Permutation_in; [apply Permutation_sym; exact Hp|exact Hx].
Qed.

Section SortFacts.
Variable A : Type.
Variable key : A -> float.

Lemma insert_desc_perm (x : A) (l : list A) :
  Permutation (insert_desc key x l) (x :: l).
Proof.
  induction l as [|y l IH]; simpl; [reflexivity|].
  destruct (flt (key x) (key y)); [|reflexivity].
  rewrite IH. apply perm_swap.
Qed.

Lemma sort_desc_perm (l : list A) : Permutation (sort_desc key l) l.
Proof.
  induction l as [|x l IH]; simpl; [reflexivity|].
  rewrite insert_desc_perm. now constructor.
Qed.

Lemma sort_desc_map (B : Type) (f : B -> A) (l : list B) :
  sort_desc key (map f l) = map f (sort_desc (fun b => key (f b)) l).
Proof.
  assert (Hins : forall x s, insert_desc key (f x) (map f s)
                             = map f (insert_desc (fun b => key (f b)) x s)).
  { intros x s. induction s as [|y s IH]; simpl; [reflexivity|].
    destruct (flt (key (f x)) (key (f y))); simpl; [now rewrite IH|reflexivity]. }
  induction l as [|x l IH]; simpl; [reflexivity|].
  now rewrite IH, Hins.
Qed.
End SortFacts.

Section IndexSort.
Variable key : nat -> float.

Lemma insert_desc_sorted (x : nat) (s : list nat) :
  fpos (key x) -> Forall (fun y => fpos (key y)) s ->
  Forall (fun y => x < y) s ->
  StronglySorted (before key) s ->
  StronglySorted (before key) (insert_desc key x s).
Proof.
  intros Hx Hs Hlt Hsorted.
  induction Hsorted as [|y s Hss IH Hy]; simpl.
  - repeat constructor.
  - inversion Hs as [|? ? Hky Hs']; subst.
    inversion Hlt as [|? ? Hxy Hlt']; subst.
    destruct (flt (key x) (key y)) eqn:E.
    + constructor; [now apply IH|].
      apply (Forall_perm (Permutation_sym (insert_desc_perm key x s))).
      constructor; [|assumption].
      left. apply fgt_pos_spec; auto. now apply flt_pos_spec.
    + constructor; [now constructor|].
      assert (Hxy' : before key x y).
      { destruct (fgt (key x) (key y)) eqn:G; [now left|right].
        split; [|assumption].
        apply feq_pos_spec; auto.
        split; intros L.
        - apply (flt_pos_spec (key x) (key y) Hx Hky) in L. congruence.
        - apply (fgt_pos_spec (key x) (key y) Hx Hky) in L. congruence. }
      constructor; [assumption|].
      rewrite Forall_forall in *. intros z Hz.
      specialize (Hy z Hz). specialize (Hs' z Hz). specialize (Hlt' z Hz).
      assert (Hnlt : ~ lexlt (fcode (key x)) (fcode (key y))).
      { intros L. apply (flt_pos_spec (key x) (key y) Hx Hky) in L. congruence. }
      assert (Hnlt2 : ~ lexlt (fcode (key y)) (fcode (key z))).
      { destruct Hy as [G|[Q _]].
        - apply (fgt_pos_spec (key y) (key z) Hky Hs') in G.
          revert G. clear. intros G L. lex_solve.
        - apply (feq_pos_spec (key y) (key z) Hky Hs') in Q. tauto. }
      destruct (fgt (key x) (key z)) eqn:G; [now left|right].
      split; [|assumption].
      apply feq_pos_spec; auto. split.
      * revert Hnlt Hnlt2. clear. intros. intros L. lex_solve.
      * intros L. apply (fgt_pos_spec (key x) (key z) Hx Hs') in L. congruence.
Qed.

Lemma sort_desc_sorted (l : list nat) :
  Forall (fun y => fpos (key y)) l ->
  StronglySorted lt l ->
  StronglySorted (before key) (sort_desc key l).
Proof.
  intros Hpos Hsorted.
  induction Hsorted as [|x l Hl IH Hx]; simpl; [constructor|].
  inversion Hpos; subst.
  apply insert_desc_sorted; auto.
  - now apply (Forall_perm (Permutation_sym (sort_desc_perm key l))).
  - now apply (Forall_perm (Permutation_sym (sort_desc_perm key l))).
Qed.
End IndexSort.

Lemma firstn_subset (A : Type) (n : nat) (l : list A) (x : A) :
  In x (firstn n l) -> In x l.
Proof.
  revert n. induction l as [|y l IH]; intros [|n]; simpl; try tauto.
  intros [->|H]; eauto.
Qed.

Lemma StronglySorted_firstn (A : Type) (R : A -> A -> Prop) (n : nat)
      (l : list A) :
  StronglySorted R l -> StronglySorted R (firstn n l).
Proof.
  intros H. revert n. induction H as [|x l Hl IH Hx]; intros [|n]; simpl;
    try constructor; auto.
  rewrite Forall_forall in *. intros y Hy. apply Hx.
  eapply firstn_subset; eauto.
Qed.

Lemma StronglySorted_filter (A : Type) (R : A -> A -> Prop) (p : A -> bool)
      (l : list A) :
  StronglySorted R l -> StronglySorted R (filter p l).
Proof.
  intros H. induction H as [|x l Hl IH Hx]; simpl; [constructor|].
  destruct (p x); [|assumption].
  constructor; [assumption|].
  rewrite Forall_forall in *. intros y Hy. apply Hx.
  apply filter_In in Hy. tauto.
Qed.

Lemma StronglySorted_seq (a n : nat) : StronglySorted lt (seq a n).
Proof.
  revert a. induction n as [|n IH]; intros a; simpl; constructor; auto.
  rewrite Forall_forall. intros y Hy. apply in_seq in Hy. lia.
Qed.

Section SearchFacts.
Context {py : PyRuntime}.

Lemma score_loop_idx (query : pystr) (rest pre : list chunk) :
  score_loop query rest
  = map (fun i => (nth i (pre ++ rest) [], score_at (pre ++ rest) query i))
        (filter (fun i => fgt (score_at (pre ++ rest) query i) f0_1)
                (seq (length pre) (length rest))).
Proof.
  revert pre. induction rest as [|c rest IH]; intros pre; [reflexivity|].
  assert (Hc : score_at (pre ++ c :: rest) query (length pre)
               = total_score query c)
    by (unfold score_at; now rewrite nth_middle).
  specialize (IH (pre ++ [c])).
  rewrite <- app_assoc, length_app in IH. simpl in IH.
  rewrite Nat.add_1_r in IH.
  simpl score_loop. simpl length. simpl seq. simpl filter. rewrite Hc.
  destruct (fgt (total_score query c) f0_1) eqn:E.
  - simpl map. rewrite Hc, nth_middle. now rewrite IH.
  - exact IH.
Qed.

Lemma ranked_idx (kc : list chunk) (query : pystr) :
  ranked kc query
  = map (fun i => (nth i kc [], score_at kc query i))
        (sort_desc (score_at kc query) (passing kc query)).
Proof.
  unfold ranked. rewrite (score_loop_idx query kc []).
  now rewrite sort_desc_map.
Qed.

Lemma passing_sorted (kc : list chunk) (query : pystr) :
  StronglySorted (before (score_at kc query))
                 (sort_desc (score_at kc query) (passing kc query)).
Proof.
  apply sort_desc_sorted.
  - unfold passing. rewrite Forall_forall. intros i Hi.
    apply filter_In in Hi. apply fgt_pos. tauto.
  - apply StronglySorted_filter, StronglySorted_seq.
Qed.

Lemma sorted_passing_In (kc : list chunk) (query : pystr) (i : nat) :
  In i (sort_desc (score_at kc query) (passing kc query)) <->
  i < length kc /\ fgt (score_at kc query i) f0_1 = true.
Proof.
  split.
  - intros H. apply (Permutation_in _ (sort_desc_perm _ _)) in H.
    apply filter_In in H. rewrite in_seq in H.
    destruct H as [H1 H2]. split; [lia|exact H2].
  - intros [H1 H2].
    apply (Permutation_in _ (Permutation_sym (sort_desc_perm _ _))).
    apply filter_In. rewrite in_seq. split; [lia|assumption].
Qed.

Lemma search_idx (kc : list chunk) (query : pystr) (top_k : Z) :
  search_relevant_chunks kc query top_k
  = map (fun i => nth i kc [])
        (slice_to top_k (sort_desc (score_at kc query) (passing kc query))).
Proof.
  unfold search_relevant_chunks. destruct kc as [|c kc].
  - unfold slice_to, passing. simpl.
    destruct (0 <=? top_k)%Z; rewrite ?firstn_nil; reflexivity.
  - rewrite ranked_idx. unfold slice_to. rewrite length_map.
    destruct (0 <=? top_k)%Z; rewrite firstn_map, map_map; reflexivity.
Qed.

Lemma search_length (kc : list chunk) (query : pystr) (top_k : Z) :
  (0 <= top_k)%Z ->
  length (search_relevant_chunks kc query top_k) <= Z.to_nat top_k.
Proof.
  intros Hk. rewrite search_idx, length_map. unfold slice_to.
  replace (0 <=? top_k)%Z with true by (symmetry; now apply Z.leb_le).
  apply firstn_le_length.
Qed.

(** C2, as amended. For every query, every loaded corpus and every
    [top_k >= 0], [search_relevant_chunks] returns at most [top_k] chunks,
    each of them a chunk of the corpus with a score strictly above 0.1,
    ordered by decreasing score with ties in corpus order; on an empty
    corpus it returns the empty list. *)
Theorem search_relevant_chunks_spec (kc : list chunk) (query : pystr)
        (top_k : Z) :
  (0 <= top_k)%Z ->
  search_spec kc query top_k (search_relevant_chunks kc query top_k).
Proof.
  intros Hk. rewrite search_idx. unfold slice_to.
  replace (0 <=? top_k)%Z with true by (symmetry; now apply Z.leb_le).
  set (sorted := sort_desc (score_at kc query) (passing kc query)).
  assert (Hin : forall i, In i (firstn (Z.to_nat top_k) sorted) ->
                          i < length kc /\ fgt (score_at kc query i) f0_1 = true).
  { intros i Hi. apply sorted_passing_In. eapply firstn_subset; eauto. }
  repeat split.
  - unfold len. rewrite length_map.
    pose proof (firstn_le_length (Z.to_nat top_k) sorted). lia.
  - apply in_map_iff in H. destruct H as (i & <- & Hi).
    apply nth_In. now apply Hin.
  - apply in_map_iff in H. destruct H as (i & <- & Hi).
    now apply Hin.
  - exists (firstn (Z.to_nat top_k) sorted). repeat split.
    + rewrite Forall_forall. intros i Hi. now apply Hin.
    + apply StronglySorted_firstn, passing_sorted.
  - intros ->. unfold sorted, passing. simpl. now rewrite firstn_nil.
Qed.
End SearchFacts.

(* ================================================================== *)
(** * The context assembler *)
(* ================================================================== *)

Lemma sum_len_cons (p : pystr) (parts : list pystr) :
  sum_len (p :: parts) = (len p + sum_len parts)%Z.
Proof. reflexivity. Qed.

Lemma len_app (A : Type) (l l' : list A) : len (l ++ l') = (len l + len l')%Z.
Proof. unfold len. rewrite length_app. lia. Qed.

Lemma len_join (parts : list pystr) :
  len (join [10%N] parts) = (sum_len parts + Z.of_nat (length parts - 1))%Z.
Proof.
  induction parts as [|p [|p' rest] IH]; [reflexivity|simpl; unfold len; lia|].
  change (join [10%N] (p :: p' :: rest))
    with (p ++ [10%N] ++ join [10%N] (p' :: rest)).
  rewrite !len_app, IH. simpl length. simpl sum_len. unfold len. simpl length.
  lia.
Qed.

Section ContextFacts.
Context {py : PyRuntime}.

Lemma context_loop_spec (chunks : list chunk) (max_length current : Z) :
  (current <= max_length)%Z ->
  exists n : nat,
    n <= length chunks /\
    context_loop chunks max_length current
    = firstn n (map formatted_chunk chunks) /\
    (current + sum_len (context_loop chunks max_length current)
     <= max_length)%Z /\
    (n < length chunks ->
     (max_length < current + sum_len (context_loop chunks max_length current)
                   + len (nth n (map formatted_chunk chunks) []))%Z).
Proof.
  revert current. induction chunks as [|c rest IH]; intros current Hc.
  - exists 0. simpl. repeat split; lia.
  - cbn [context_loop map length].
    remember (formatted_chunk c) as f eqn:Hf.
    destruct (current + len f <=? max_length)%Z eqn:E.
    + apply Z.leb_le in E.
      destruct (IH _ E) as (n & Hn & Heq & Hsum & Hnext).
      exists (S n). cbn [firstn nth]. rewrite <- Heq, sum_len_cons.
      repeat split; lia.
    + apply Z.leb_gt in E. exists 0. cbn [firstn nth sum_len fold_right].
      repeat split; lia.
Qed.

Lemma get_context_nonempty (kc : list chunk) (query : pystr) (m : Z) :
  search_relevant_chunks kc query 3 <> [] ->
  get_context_for_query kc query m = join [10%N] (included_blocks kc query m).
Proof.
  unfold get_context_for_query, included_blocks.
  destruct (search_relevant_chunks kc query 3); [congruence|reflexivity].
Qed.

(** C3, as amended. For every query and every [max_length >= 0],
    [get_context_for_query] takes whole formatted blocks of the ranked
    chunks greedily in ranked order: the blocks it keeps are a prefix of the
    ranked blocks, never a truncated block; the sum of their lengths is at
    most [max_length]; and the first block that would exceed [max_length]
    stops the assembly, no later block being taken. *)
Theorem get_context_greedy (kc : list chunk) (query : pystr)
        (max_length : Z) :
  (0 <= max_length)%Z ->
  greedy_spec (ranked_blocks kc query) max_length
              (included_blocks kc query max_length) /\
  (search_relevant_chunks kc query 3 <> [] ->
   get_context_for_query kc query max_length
   = join [10%N] (included_blocks kc query max_length)).
Proof.
  intros Hm. split; [|apply get_context_nonempty].
  unfold greedy_spec, ranked_blocks, included_blocks.
  destruct (@context_loop_spec (search_relevant_chunks kc query 3)
                               max_length 0 Hm)
    as (n & Hn & Heq & Hsum & Hnext).
  exists n. rewrite length_map. repeat split; auto; lia.
Qed.

(** C5. Whenever [search_relevant_chunks] returns the empty list,
    [get_context_for_query] returns the fixed fallback string, which is not
    empty; this is the case on an empty corpus, and for the empty query on
    the default corpus, where no chunk scores above 0.1. *)
Theorem get_context_fallback :
  (forall kc query m,
      search_relevant_chunks kc query 3 = [] ->
      get_context_for_query kc query m = fallback_context) /\
  (forall query m, get_context_for_query [] query m = fallback_context) /\
  (forall m,
      search_relevant_chunks sample_chunks [] 3 = [] /\
      get_context_for_query sample_chunks [] m = fallback_context) /\
  fallback_context <> [].
Proof.
  assert (H1 : forall kc query m,
             search_relevant_chunks kc query 3 = [] ->
             get_context_for_query kc query m = fallback_context).
  { intros kc query m H. unfold get_context_for_query. now rewrite H. }
  split; [exact H1|]. split; [intros; now apply H1|].
  split; [|intros H; vm_compute in H; discriminate H].
  assert (Hscore : forall c, In c sample_chunks -> total_score [] c = f0).
  { assert (Hall : forallb
                     (fun c => truthy (get c k_chunk [])
                               && truthy (get c k_subtopic [])
                               && truthy (get c k_chapter []))
                     sample_chunks = true) by (vm_compute; reflexivity).
    rewrite forallb_forall in Hall. intros c Hc. specialize (Hall c Hc).
    apply andb_true_iff in Hall. destruct Hall as [Hall H3].
    apply andb_true_iff in Hall. destruct Hall as [Ha Hb].
    assert (Hne : forall s, truthy s = true -> lower (lower s) <> []).
    { intros s Hs E. apply (proj1 (lower_nil _)) in E.
      apply (proj1 (lower_nil _)) in E. subst s. discriminate Hs. }
    unfold total_score, similarity_score, keyword_loop.
    assert (Hl0 : lower [] = []) by (now apply lower_nil).
    rewrite !Hl0, !ratio_nil_l by (now apply Hne). reflexivity. }
  assert (Hloop : forall l, (forall c, In c l -> total_score [] c = f0) ->
                            score_loop [] l = []).
  { induction l as [|c l IH]; intros Hl; [reflexivity|].
    simpl. rewrite (Hl c) by (now left).
    replace (fgt f0 f0_1) with false by reflexivity.
    apply IH. intros; apply Hl; now right. }
  assert (Hs : search_relevant_chunks sample_chunks [] 3 = []).
  { unfold search_relevant_chunks, ranked.
    rewrite (Hloop sample_chunks Hscore). reflexivity. }
  intros m. split; [exact Hs|now apply H1].
Qed.
End ContextFacts.

Section ContextLength.
Context {py : PyRuntime}.

Lemma included_blocks_length (kc : list chunk) (query : pystr) (m : Z) :
  length (included_blocks kc query m) <= 3.
Proof.
  unfold included_blocks.
  assert (H3 : length (search_relevant_chunks kc query 3) <= 3).
  { pose proof (@search_length py kc query 3). lia. }
  revert H3. generalize (search_relevant_chunks kc query 3). intros l Hl.
  assert (G : forall cur, length (context_loop l m cur) <= length l).
  { induction l as [|c l IH]; intros cur; cbn [context_loop length]; [lia|].
    destruct (cur + len (formatted_chunk c) <=? m)%Z; cbn [length]; [|lia].
    assert (length l <= 3) by (simpl in Hl; lia).
    specialize (IH H (cur + len (formatted_chunk c))%Z). lia. }
  specialize (G 0%Z). lia.
Qed.

(** C9. For every query and every [max_length >= 0], when
    [get_context_for_query] does not return the fallback string, the length
    of what it returns is the sum of the lengths of the included blocks plus
    one separator for each gap between them, at most 2 gaps since
    [top_k = 3]; so the length is at most [max_length + 2], and it can
    exceed [max_length] since the separators that [join] inserts are not
    counted against the budget (for [two_chunks], the query [a] and budget
    28 the result has 29 code points). *)
Theorem get_context_length (kc : list chunk) (query : pystr) (max_length : Z) :
  (0 <= max_length)%Z ->
  get_context_for_query kc query max_length <> fallback_context ->
  let included := included_blocks kc query max_length in
  let gaps := length included - 1 in
  len (get_context_for_query kc query max_length)
  = (sum_len included + Z.of_nat gaps)%Z /\
  gaps <= 2 /\
  (len (get_context_for_query kc query max_length) <= max_length + 2)%Z /\
  (get_context_for_query (py := ascii_runtime) two_chunks (u "a") 28
   <> fallback_context /\
   (28 < len (get_context_for_query (py := ascii_runtime)
                                    two_chunks (u "a") 28))%Z).
Proof.
  intros Hm Hnf. cbv zeta.
  assert (Hne : search_relevant_chunks kc query 3 <> []).
  { intros E. apply Hnf. unfold get_context_for_query. now rewrite E. }
  rewrite (get_context_nonempty kc query max_length Hne), len_join.
  pose proof (included_blocks_length kc query max_length) as H3.
  destruct (@context_loop_spec (search_relevant_chunks kc query 3)
                               max_length 0 Hm)
    as (n & _ & _ & Hsum & _).
  fold (included_blocks kc query max_length) in Hsum.
  assert (Hex : get_context_for_query (py := ascii_runtime) two_chunks (u "a") 28
                <> fallback_context)
    by (intros E; vm_compute in E; discriminate E).
  assert (Hlen : (28 < len (get_context_for_query (py := ascii_runtime)
                                                  two_chunks (u "a") 28))%Z)
    by (vm_compute; reflexivity).
  repeat split; auto; lia.
Qed.
End ContextLength.

Section EmptyQuery.
Context {py : PyRuntime}.

Lemma score_loop_In (query : pystr) (kc : list chunk) (c : chunk) :
  In c kc -> fgt (total_score query c) f0_1 = true ->
  In (c, total_score query c) (score_loop query kc).
Proof.
  intros Hin Hgt. induction kc as [|d kc IH]; [contradiction|].
  simpl. destruct Hin as [->|Hin].
  - rewrite Hgt. now left.
  - destruct (fgt (total_score query d) f0_1); [right|]; auto.
Qed.

Lemma score_loop_length (query : pystr) (kc : list chunk) :
  length (score_loop query kc) <= length kc.
Proof.
  induction kc as [|c kc IH]; simpl; [lia|].
  destruct (fgt (total_score query c) f0_1); simpl; lia.
Qed.

(** C10. For the empty query and a chunk whose subtopic and chapter are
    the empty string and whose text is not empty, the score is exactly 2.7:
    the ratio of two empty strings is 1.0, which gives 1.5 for the subtopic
    and 1.2 for the chapter, the content and keyword scores being 0.  It is
    above the floor of 0.1, so in any corpus that holds it the chunk is
    ranked, at some rank [i], and is returned by [search_relevant_chunks]
    for the empty query whenever [top_k] exceeds [i]; a [top_k] that is not
    below the size of the corpus always does. *)
Theorem empty_query_score (c : chunk) (kc : list chunk) :
  get c k_subtopic [] = [] ->
  get c k_chapter [] = [] ->
  get c k_chunk [] <> [] ->
  In c kc ->
  total_score [] c = f2_7 /\
  fgt f2_7 f0_1 = true /\
  exists i : nat,
    i < length kc /\
    nth_error (map fst (ranked kc [])) i = Some c /\
    forall top_k : Z,
      (Z.of_nat i < top_k)%Z -> In c (search_relevant_chunks kc [] top_k).
Proof.
  intros Hs Hc Ht Hin.
  assert (Hl0 : lower [] = []) by (now apply lower_nil).
  assert (Hscore : total_score [] c = f2_7).
  { unfold total_score, similarity_score, keyword_loop.
    rewrite Hs, Hc, !Hl0, ratio_nil_nil, ratio_nil_l; [reflexivity|].
    intros E. apply (proj1 (lower_nil _)) in E.
    apply (proj1 (lower_nil _)) in E. congruence. }
  split; [exact Hscore|]. split; [reflexivity|].
  assert (Hr : In c (map fst (ranked kc []))).
  { apply in_map_iff. exists (c, total_score [] c). split; [reflexivity|].
    unfold ranked.
    apply (Permutation_in _ (Permutation_sym (sort_desc_perm _ _))).
    apply score_loop_In; [assumption|]. now rewrite Hscore. }
  destruct (In_nth_error _ _ Hr) as [i Hi].
  exists i. split; [|split; [exact Hi|]].
  - assert (Hlt : i < length (map fst (ranked kc [])))
      by (apply nth_error_Some; congruence).
    rewrite length_map in Hlt. unfold ranked in Hlt.
    rewrite (Permutation_length (sort_desc_perm _ _)) in Hlt.
    pose proof (score_loop_length [] kc). lia.
  - intros top_k Hk. unfold search_relevant_chunks.
    destruct kc as [|d kc]; [contradiction|].
    unfold slice_to.
    replace (0 <=? top_k)%Z with true by (symmetry; apply Z.leb_le; lia).
    rewrite <- firstn_map.
    apply nth_error_In with (n := i).
    rewrite nth_error_firstn.
    replace (i <? Z.to_nat top_k) with true
      by (symmetry; apply Nat.ltb_lt; lia).
    exact Hi.
Qed.
End EmptyQuery.

(* ================================================================== *)
(** * Chapter topics *)
(* ================================================================== *)

Lemma mem_app (x : pystr) (l l' : list pystr) :
  mem x (l ++ l') = mem x l || mem x l'.
Proof. unfold mem. apply existsb_app. Qed.

Lemma filter_twice (A : Type) (p q : A -> bool) (l : list A) :
  filter p (filter q l) = filter (fun x => q x && p x) l.
Proof.
  induction l as [|x l IH]; simpl; [reflexivity|].
  destruct (q x); simpl; [destruct (p x)|]; now rewrite IH.
Qed.

Section TopicFacts.
Context {py : PyRuntime}.

Lemma topics_loop_spec (kc : list chunk) (chapter : pystr) :
  forall topics,
    topics_loop kc chapter topics
    = topics ++ filter (fun t => negb (mem t topics)) (topics_spec kc chapter).
Proof.
  unfold topics_spec.
  induction kc as [|c kc IH]; intros topics.
  - simpl. now rewrite app_nil_r.
  - cbn [topics_loop filter].
    fold (matches_chapter chapter c).
    destruct (matches_chapter chapter c); [|apply IH].
    cbn [map filter].
    destruct (truthy (get c k_subtopic [])) eqn:Et; [|apply IH].
    cbn [first_seen filter andb].
    set (t := get c k_subtopic []) in *.
    set (L := first_seen _).
    destruct (mem t topics) eqn:Em; cbn [negb].
    + rewrite IH. fold L. rewrite filter_twice. f_equal.
      apply filter_ext_in. intros x _.
      destruct (pystr_eqb t x) eqn:Ex; [|reflexivity].
      apply pystr_eqb_eq in Ex. subst x. now rewrite Em.
    + rewrite IH. fold L. rewrite <- app_assoc. cbn [app]. do 2 f_equal.
      rewrite filter_twice. apply filter_ext. intros x.
      rewrite mem_app. cbn [mem existsb]. rewrite orb_false_r.
      replace (pystr_eqb x t) with (pystr_eqb t x).
      * destruct (pystr_eqb t x), (mem x topics); reflexivity.
      * destruct (pystr_eqb t x) eqn:E1, (pystr_eqb x t) eqn:E2; auto.
        -- apply pystr_eqb_eq in E1. subst. now rewrite pystr_eqb_refl in E2.
        -- apply pystr_eqb_eq in E2. subst. now rewrite pystr_eqb_refl in E1.
Qed.

Lemma topics_loop_ascii (kc : list chunk) (chapter : pystr) :
  forallb is_ascii chapter = true ->
  forallb (fun c => forallb is_ascii (get c k_chapter [])) kc = true ->
  forall topics,
    topics_loop kc chapter topics
    = topics_loop (py := ascii_runtime) kc chapter topics.
Proof.
  intros Hch. induction kc as [|c kc IH]; intros Hkc topics; [reflexivity|].
  cbn [forallb] in Hkc. apply andb_true_iff in Hkc. destruct Hkc as [Hc Hkc].
  cbn [topics_loop]. rewrite (lower_ascii _ Hch), (lower_ascii _ Hc).
  change (@lower ascii_runtime) with (map ascii_lower_cp).
  destruct (str_in _ _); [destruct (_ && _)|]; now rewrite IH.
Qed.

(** C7, as amended. For every non-empty category argument,
    [get_chapter_topics] returns the distinct non-empty subtopics of exactly
    those chunks whose chapter contains the argument as a case-insensitive
    substring, in first-seen corpus order; on the default corpus, the
    argument [Electricity] gives Electric Current, Electric Potential,
    Ohm's Law, Resistance, Resistor Combinations and Electric Power, in
    that order. *)
Theorem get_chapter_topics_spec (kc : list chunk) (chapter : pystr) :
  chapter <> [] ->
  get_chapter_topics kc (Some chapter) = topics_spec kc chapter /\
  get_chapter_topics sample_chunks (Some (u "Electricity"))
  = electricity_topics.
Proof.
  intros Hne. split.
  - destruct chapter as [|x chapter]; [congruence|].
    cbn [get_chapter_topics]. rewrite topics_loop_spec. cbn [app mem existsb negb].
    induction (topics_spec kc (x :: chapter)) as [|t l IH]; [reflexivity|].
    cbn [filter]. now rewrite IH.
  - change (get_chapter_topics sample_chunks (Some (u "Electricity")))
      with (topics_loop sample_chunks (u "Electricity") []).
    rewrite topics_loop_ascii by (vm_compute; reflexivity).
    vm_compute. reflexivity.
Qed.

(** C8. Called with no argument on any loaded corpus,
    [get_chapter_topics] returns a collection without duplicates whose
    elements are exactly the non-empty subtopic values of the loaded chunks,
    whatever the order; the empty subtopics are left out, and on an empty
    corpus the collection is empty. *)
Theorem get_chapter_topics_all (kc : list chunk) :
  NoDup (get_chapter_topics kc None) /\
  (forall x : pystr,
      In x (get_chapter_topics kc None) <->
      x <> [] /\ exists c, In c kc /\ dict_find k_subtopic c = Some x) /\
  get_chapter_topics [] None = [].
Proof.
  cbn [get_chapter_topics]. split; [apply set_order_NoDup|]. split.
  - intros x. rewrite set_order_In, in_map_iff. split.
    + intros (c & Hx & Hc). apply filter_In in Hc. destruct Hc as [Hc Ht].
      unfold get in Hx.
      destruct (dict_find k_subtopic c) as [v|] eqn:Ef; [|discriminate Ht].
      subst v. split; [|exists c; split; assumption].
      intros ->. discriminate Ht.
    + intros (Hx & c & Hc & Hf). exists c. unfold get. rewrite Hf.
      split; [reflexivity|]. apply filter_In. split; [assumption|].
      rewrite Hf. destruct x; [congruence|reflexivity].
  - cbn [filter map].
    destruct (set_order []) as [|x l] eqn:E; [reflexivity|].
    exfalso. apply (proj1 (set_order_In [] x)). rewrite E. now left.
Qed.
End TopicFacts.

(* ================================================================== *)
(** * The loader *)
(* ================================================================== *)









(* ================================================================== *)
(** * More on the ranking *)
(* ================================================================== *)

Lemma slice_to_map (A B : Type) (f : A -> B) (k : Z) (l : list A) :
  slice_to k (map f l) = map f (slice_to k l).
Proof.
  unfold slice_to. rewrite length_map.
  destruct (0 <=? k)%Z; now rewrite firstn_map.
Qed.

Lemma slice_to_nil (A : Type) (k : Z) : slice_to k (@nil A) = [].
Proof. unfold slice_to. destruct (0 <=? k)%Z; now rewrite firstn_nil. Qed.

Lemma slice_to_In (A : Type) (k : Z) (l : list A) (x : A) :
  In x (slice_to k l) -> In x l.
Proof. unfold slice_to. destruct (0 <=? k)%Z; apply firstn_subset. Qed.

Lemma slice_to_len (A : Type) (k : Z) (l : list A) :
  (0 <= k)%Z -> (len (slice_to k l) <= k)%Z.
Proof.
  intros Hk. unfold slice_to, len.
  replace (0 <=? k)%Z with true by (symmetry; now apply Z.leb_le).
  pose proof (firstn_le_length (Z.to_nat k) l). lia.
Qed.

Lemma StronglySorted_app_inv (A : Type) (R : A -> A -> Prop) (l1 l2 : list A) :
  StronglySorted R (l1 ++ l2) ->
  forall x y, In x l1 -> In y l2 -> R x y.
Proof.
  induction l1 as [|a l1 IH]; intros H x y Hx Hy; [contradiction|].
  simpl in H. inversion H as [|? ? Hs Hall]; subst.
  destruct Hx as [->|Hx].
  - rewrite Forall_forall in Hall. apply Hall. apply in_or_app. now right.
  - now apply IH.
Qed.

Lemma before_fge (key : nat -> float) (i j : nat) :
  before key i j -> fge (key i) (key j) = true.
Proof.
  unfold before, fgt, fge, feq, SFeqb.
  intros [H|[H _]]; destruct (SFcompare (key i) (key j)) as [[| |]|];
    try discriminate; reflexivity.
Qed.

Section SearchMore.
Context {py : PyRuntime}.

Lemma sorted_passing_length (kc : list chunk) (query : pystr) :
  length (sort_desc (score_at kc query) (passing kc query)) <= length kc.
Proof.
  rewrite (Permutation_length (sort_desc_perm _ _)). unfold passing.
  etransitivity; [apply filter_length_le|]. now rewrite length_seq.
Qed.

Lemma search_full (kc : list chunk) (query : pystr) (top_k : Z) :
  (len kc <= top_k)%Z ->
  search_relevant_chunks kc query top_k
  = map (fun i => nth i kc [])
        (sort_desc (score_at kc query) (passing kc query)).
Proof.
  intros Hk. rewrite search_idx. f_equal. unfold slice_to, len in *.
  replace (0 <=? top_k)%Z with true by (symmetry; apply Z.leb_le; lia).
  apply firstn_all2. pose proof (sorted_passing_length kc query). lia.
Qed.

Lemma search_unfold (kc : list chunk) (query : pystr) (top_k : Z) :
  search_relevant_chunks kc query top_k
  = map fst (slice_to top_k (ranked kc query)).
Proof.
  unfold search_relevant_chunks. destruct kc; [|reflexivity].
  unfold ranked. simpl. now rewrite slice_to_nil.
Qed.

Lemma score_loop_app (query : pystr) (kc1 kc2 : list chunk) :
  score_loop query (kc1 ++ kc2) = score_loop query kc1 ++ score_loop query kc2.
Proof.
  induction kc1 as [|c kc1 IH]; [reflexivity|].
  simpl. destruct (fgt (total_score query c) f0_1); simpl; now rewrite IH.
Qed.

Lemma total_score_lower (q1 q2 : pystr) (c : chunk) :
  lower q1 = lower q2 -> total_score q1 c = total_score q2 c.
Proof. intros H. unfold total_score. now rewrite H. Qed.

Lemma score_loop_ext (q1 q2 : pystr) (kc : list chunk) :
  (forall c, In c kc -> total_score q1 c = total_score q2 c) ->
  score_loop q1 kc = score_loop q2 kc.
Proof.
  induction kc as [|c kc IH]; intros H; [reflexivity|].
  simpl. rewrite (H c) by (now left).
  rewrite IH by (intros; apply H; now right). reflexivity.
Qed.

Lemma score_loop_none (query : pystr) (kc : list chunk) :
  (forall c, In c kc -> fgt (total_score query c) f0_1 = false) ->
  score_loop query kc = [].
Proof.
  induction kc as [|c kc IH]; intros H; [reflexivity|].
  simpl. rewrite (H c) by (now left). apply IH. intros; apply H; now right.
Qed.

(** X1. The chunks that [search_relevant_chunks] returns are the best
    ones: for [top_k >= 0], when a chunk of the corpus scores above 0.1 and
    is not returned, the result is full, of [top_k] chunks, and every chunk
    returned scores at least as much as the one left out. *)
Theorem search_best_first (kc : list chunk) (query : pystr) (top_k : Z)
        (c : chunk) :
  (0 <= top_k)%Z ->
  In c kc ->
  fgt (total_score query c) f0_1 = true ->
  ~ In c (search_relevant_chunks kc query top_k) ->
  len (search_relevant_chunks kc query top_k) = top_k /\
  forall r, In r (search_relevant_chunks kc query top_k) ->
            fge (total_score query r) (total_score query c) = true.
Proof.
  intros Hk Hin Hgt Hout.
  rewrite search_idx in *. unfold slice_to in *.
  replace (0 <=? top_k)%Z with true in * by (symmetry; now apply Z.leb_le).
  set (sorted := sort_desc (score_at kc query) (passing kc query)) in *.
  destruct (@In_nth chunk kc c [] Hin) as (j & Hj & Hc).
  assert (Hjs : In j sorted).
  { apply sorted_passing_In. split; [exact Hj|].
    unfold score_at. now rewrite Hc. }
  rewrite <- (firstn_skipn (Z.to_nat top_k) sorted) in Hjs.
  apply in_app_or in Hjs. destruct Hjs as [Hjs|Hjs].
  { exfalso. apply Hout. apply in_map_iff. exists j. now split. }
  split.
  - unfold len. rewrite length_map, length_firstn.
    assert (Hlen : Z.to_nat top_k < length sorted).
    { destruct (Nat.lt_ge_cases (Z.to_nat top_k) (length sorted)) as [L|L];
        [exact L|].
      rewrite skipn_all2 in Hjs by exact L. contradiction. }
    lia.
  - intros r Hr. apply in_map_iff in Hr. destruct Hr as (i & <- & Hi).
    rewrite <- Hc.
    apply (@before_fge (score_at kc query) i j).
    pose proof (passing_sorted kc query) as Hs. fold sorted in Hs.
    rewrite <- (firstn_skipn (Z.to_nat top_k) sorted) in Hs.
    eapply StronglySorted_app_inv; eauto.
Qed.

(** X2. Whatever [top_k] is, the result of [search_relevant_chunks] is
    the slice [[:top_k]] of the full ranking, which a [top_k] equal to the
    size of the corpus gives: for [0 <= top_k <= k] it is the first
    [top_k] chunks of the result for [k], and a negative [top_k] drops the
    last [-top_k] chunks of the full ranking. *)
Theorem search_slice_of_full (kc : list chunk) (query : pystr) (top_k : Z) :
  search_relevant_chunks kc query top_k
  = slice_to top_k (search_relevant_chunks kc query (len kc)) /\
  (forall k : Z, (0 <= top_k <= k)%Z ->
     search_relevant_chunks kc query top_k
     = firstn (Z.to_nat top_k) (search_relevant_chunks kc query k)) /\
  ((top_k < 0)%Z ->
   length (search_relevant_chunks kc query top_k)
   = length (search_relevant_chunks kc query (len kc)) - Z.to_nat (- top_k)).
Proof.
  assert (Hfull : search_relevant_chunks kc query top_k
                  = slice_to top_k (search_relevant_chunks kc query (len kc))).
  { rewrite (@search_full kc query (len kc)) by lia.
    now rewrite search_idx, slice_to_map. }
  split; [exact Hfull|]. split.
  - intros k Hk. rewrite !search_idx. unfold slice_to.
    replace (0 <=? top_k)%Z with true by (symmetry; apply Z.leb_le; lia).
    replace (0 <=? k)%Z with true by (symmetry; apply Z.leb_le; lia).
    rewrite <- firstn_map. rewrite <- (firstn_map _ (Z.to_nat k)).
    rewrite firstn_firstn. f_equal. lia.
  - intros Hk. rewrite Hfull. unfold slice_to.
    replace (0 <=? top_k)%Z with false by (symmetry; apply Z.leb_gt; lia).
    rewrite length_firstn. lia.
Qed.

(** X3. With [top_k] at least the size of the corpus,
    [search_relevant_chunks] returns the chunks that score above 0.1 and no
    others, each as often as the corpus holds it. *)
Theorem search_all_above_floor (kc : list chunk) (query : pystr) (top_k : Z) :
  (len kc <= top_k)%Z ->
  Permutation (search_relevant_chunks kc query top_k)
              (filter (fun c => fgt (total_score query c) f0_1) kc).
Proof.
  intros Hk. rewrite search_unfold. unfold slice_to, ranked.
  replace (0 <=? top_k)%Z with true
    by (symmetry; apply Z.leb_le; unfold len in Hk; lia).
  rewrite firstn_all2.
  - rewrite (sort_desc_perm snd (score_loop query kc)).
    clear. induction kc as [|c kc IH]; simpl; [reflexivity|].
    destruct (fgt (total_score query c) f0_1); simpl; [now constructor|exact IH].
  - rewrite (Permutation_length (sort_desc_perm _ _)).
    pose proof (score_loop_length query kc). unfold len in Hk. lia.
Qed.

(** X4. A chunk that does not score above 0.1 has no effect on a search:
    with or without it in the corpus, wherever it stands, the result of
    [search_relevant_chunks] is the same. *)
Theorem search_ignores_irrelevant (kc1 kc2 : list chunk) (c : chunk)
        (query : pystr) (top_k : Z) :
  fgt (total_score query c) f0_1 = false ->
  search_relevant_chunks (kc1 ++ c :: kc2) query top_k
  = search_relevant_chunks (kc1 ++ kc2) query top_k.
Proof.
  intros H. rewrite !search_unfold. unfold ranked.
  rewrite !score_loop_app. cbn [score_loop]. now rewrite H.
Qed.

(** X5. The search does not see the case of the query: two queries with
    the same lowercase form get the same chunks from
    [search_relevant_chunks] and the same text from
    [get_context_for_query]. *)
Theorem search_ignores_query_case (kc : list chunk) (q1 q2 : pystr) :
  lower q1 = lower q2 ->
  (forall top_k,
      search_relevant_chunks kc q1 top_k = search_relevant_chunks kc q2 top_k) /\
  (forall m, get_context_for_query kc q1 m = get_context_for_query kc q2 m).
Proof.
  intros H.
  assert (Hs : forall top_k, search_relevant_chunks kc q1 top_k
                             = search_relevant_chunks kc q2 top_k).
  { intros top_k. unfold search_relevant_chunks, ranked.
    rewrite (@score_loop_ext q1 q2 kc); [reflexivity|].
    intros c _. now apply total_score_lower. }
  split; [exact Hs|].
  intros m. unfold get_context_for_query. now rewrite Hs.
Qed.

(** X6. On a corpus whose chunks all have a text, a subtopic and a
    chapter that are not empty, the empty query scores 0 on every chunk:
    [search_relevant_chunks] returns nothing for it, whatever [top_k], and
    [get_context_for_query] returns the fallback string. *)
Theorem empty_query_no_match (kc : list chunk) :
  (forall c, In c kc ->
             get c k_chunk [] <> [] /\ get c k_subtopic [] <> []
             /\ get c k_chapter [] <> []) ->
  (forall c, In c kc -> total_score [] c = f0) /\
  (forall top_k, search_relevant_chunks kc [] top_k = []) /\
  (forall m, get_context_for_query kc [] m = fallback_context).
Proof.
  intros Hall.
  assert (Hl0 : lower [] = []) by (now apply lower_nil).
  assert (Hne : forall s, s <> [] -> lower (lower s) <> []).
  { intros s Hs E. apply (proj1 (lower_nil _)) in E.
    apply (proj1 (lower_nil _)) in E. contradiction. }
  assert (Hscore : forall c, In c kc -> total_score [] c = f0).
  { intros c Hc. destruct (Hall c Hc) as (H1 & H2 & H3).
    unfold total_score, similarity_score, keyword_loop.
    rewrite !Hl0, !ratio_nil_l by (now apply Hne). reflexivity. }
  assert (Hs : forall top_k, search_relevant_chunks kc [] top_k = []).
  { intros top_k. rewrite search_unfold. unfold ranked.
    rewrite score_loop_none.
    - simpl. now rewrite slice_to_nil.
    - intros c Hc. now rewrite (Hscore c Hc). }
  split; [exact Hscore|]. split; [exact Hs|].
  intros m. unfold get_context_for_query. now rewrite Hs.
Qed.
End SearchMore.

(* ================================================================== *)
(** * More on the context *)
(* ================================================================== *)

Lemma len_nonneg (A : Type) (l : list A) : (0 <= len l)%Z.
Proof. unfold len. lia. Qed.

Lemma sum_len_nonneg (parts : list pystr) : (0 <= sum_len parts)%Z.
Proof.
  induction parts as [|p parts IH]; [simpl; lia|].
  rewrite sum_len_cons. pose proof (len_nonneg p). lia.
Qed.

Lemma formatted_chunk_len (c : chunk) :
  len (formatted_chunk c)
  = (12 + len (get c k_chapter []) + len (get c k_subtopic [])
     + len (get c k_chunk []))%Z.
Proof.
  unfold formatted_chunk. cbv zeta. rewrite !len_app.
  replace (len (u "📚 **")) with 4%Z by (vm_compute; reflexivity).
  replace (len (u "** - ")) with 5%Z by (vm_compute; reflexivity).
  replace (len (u ":")) with 1%Z by (vm_compute; reflexivity).
  change (len [10%N]) with 1%Z. lia.
Qed.

Lemma join_cons_nonempty (sep p : pystr) (rest : list pystr) :
  p <> [] -> join sep (p :: rest) <> [].
Proof.
  intros Hp. destruct rest as [|q rest]; [exact Hp|].
  change (join sep (p :: q :: rest)) with (p ++ sep ++ join sep (q :: rest)).
  destruct p; [congruence|discriminate].
Qed.

Lemma context_loop_all (l : list chunk) (m cur : Z) :
  (cur + sum_len (map formatted_chunk l) <= m)%Z ->
  context_loop l m cur = map formatted_chunk l.
Proof.
  revert cur. induction l as [|c l IH]; intros cur H; [reflexivity|].
  cbn [map] in *. rewrite sum_len_cons in H.
  cbn [context_loop].
  pose proof (sum_len_nonneg (map formatted_chunk l)).
  replace (cur + len (formatted_chunk c) <=? m)%Z with true
    by (symmetry; apply Z.leb_le; lia).
  rewrite IH by lia. reflexivity.
Qed.

Lemma context_loop_mono (l : list chunk) (m1 m2 cur : Z) :
  (m1 <= m2)%Z ->
  exists n, context_loop l m1 cur = firstn n (context_loop l m2 cur).
Proof.
  intros Hm. revert cur. induction l as [|c l IH]; intros cur.
  - exists 0. reflexivity.
  - cbn [context_loop].
    destruct (cur + len (formatted_chunk c) <=? m1)%Z eqn:E1.
    + apply Z.leb_le in E1.
      replace (cur + len (formatted_chunk c) <=? m2)%Z with true
        by (symmetry; apply Z.leb_le; lia).
      destruct (IH (cur + len (formatted_chunk c))%Z) as [n Hn].
      exists (S n). cbn [firstn]. now rewrite Hn.
    + exists 0. reflexivity.
Qed.

Section ContextMore.
Context {py : PyRuntime}.

(** X7. [get_context_for_query] returns the empty string exactly when the
    search finds chunks and the block of the first one is longer than
    [max_context_length]: the fallback string is not used then.  A block has
    12 code points besides its chapter, subtopic and text, so with a budget
    below 12 the result is either the empty string or the fallback. *)
Theorem get_context_empty_iff (kc : list chunk) (query : pystr) (m : Z) :
  (get_context_for_query kc query m = [] <->
   exists c rest,
     search_relevant_chunks kc query 3 = c :: rest /\
     (m < len (formatted_chunk c))%Z) /\
  ((m < 12)%Z ->
   get_context_for_query kc query m = [] \/
   get_context_for_query kc query m = fallback_context).
Proof.
  assert (Hback : forall c rest,
             search_relevant_chunks kc query 3 = c :: rest ->
             (m < len (formatted_chunk c))%Z ->
             get_context_for_query kc query m = []).
  { intros c rest Hs Hm. unfold get_context_for_query. rewrite Hs.
    cbn [context_loop].
    replace (0 + len (formatted_chunk c) <=? m)%Z with false
      by (symmetry; apply Z.leb_gt; lia).
    reflexivity. }
  split; [split|].
  - intros H. unfold get_context_for_query in H.
    destruct (search_relevant_chunks kc query 3) as [|c rest] eqn:Hs.
    + vm_compute in H. discriminate H.
    + exists c, rest. split; [reflexivity|].
      cbn [context_loop] in H.
      destruct (0 + len (formatted_chunk c) <=? m)%Z eqn:E;
        [|apply Z.leb_gt in E; lia].
      exfalso. revert H. apply join_cons_nonempty.
      unfold formatted_chunk. cbv zeta.
      intros E'. apply (f_equal (@length N)) in E'.
      rewrite length_app in E'. vm_compute in E'. discriminate E'.
  - intros (c & rest & Hs & Hm). eapply Hback; eauto.
  - intros Hm.
    destruct (search_relevant_chunks kc query 3) as [|c rest] eqn:Hs.
    + right. unfold get_context_for_query. now rewrite Hs.
    + left. apply (Hback c rest eq_refl).
      rewrite formatted_chunk_len.
      pose proof (len_nonneg (get c k_chapter [])).
      pose proof (len_nonneg (get c k_subtopic [])).
      pose proof (len_nonneg (get c k_chunk [])). lia.
Qed.

(** X8. When the blocks of all the ranked chunks fit together in
    [max_context_length], [get_context_for_query] keeps every one of them:
    its result is the ranked blocks joined by newlines. *)
Theorem get_context_whole_ranking (kc : list chunk) (query : pystr) (m : Z) :
  (sum_len (ranked_blocks kc query) <= m)%Z ->
  included_blocks kc query m = ranked_blocks kc query /\
  (search_relevant_chunks kc query 3 <> [] ->
   get_context_for_query kc query m = join [10%N] (ranked_blocks kc query)).
Proof.
  intros H.
  assert (E : included_blocks kc query m = ranked_blocks kc query).
  { unfold included_blocks, ranked_blocks in *. apply context_loop_all. lia. }
  split; [exact E|].
  intros Hne. rewrite (get_context_nonempty kc query m Hne). now rewrite E.
Qed.

(** X9. A larger budget never loses a block: the blocks that
    [get_context_for_query] keeps within [m1] are the first ones of those
    it keeps within any [m2 >= m1]. *)
Theorem get_context_budget_monotone (kc : list chunk) (query : pystr)
        (m1 m2 : Z) :
  (m1 <= m2)%Z ->
  exists n, included_blocks kc query m1
            = firstn n (included_blocks kc query m2).
Proof. intros H. unfold included_blocks. now apply context_loop_mono. Qed.
End ContextMore.

(* ================================================================== *)
(** * More on the topics *)
(* ================================================================== *)

Lemma first_seen_NoDup (l : list pystr) : NoDup (first_seen l).
Proof. exact (@set_order_NoDup ascii_runtime l). Qed.

Lemma first_seen_In (l : list pystr) (x : pystr) :
  In x (first_seen l) <-> In x l.
Proof. exact (@set_order_In ascii_runtime l x). Qed.

Section TopicsMore.
Context {py : PyRuntime}.

Lemma chapter_topics_some (kc : list chunk) (chapter : pystr) :
  chapter <> [] ->
  get_chapter_topics kc (Some chapter) = topics_spec kc chapter.
Proof.
  intros Hne. destruct chapter as [|x chapter]; [congruence|].
  cbn [get_chapter_topics]. rewrite topics_loop_spec. cbn [app mem existsb negb].
  induction (topics_spec kc (x :: chapter)) as [|t l IH]; [reflexivity|].
  cbn [filter]. now rewrite IH.
Qed.

Lemma chapter_topics_none_In (kc : list chunk) (x : pystr) :
  In x (get_chapter_topics kc None) <->
  x <> [] /\ exists c, In c kc /\ get c k_subtopic [] = x.
Proof.
  cbn [get_chapter_topics]. rewrite set_order_In, in_map_iff. split.
  - intros (c & Hx & Hc). apply filter_In in Hc. destruct Hc as [Hc Ht].
    split; [|exists c; now split].
    unfold get in Hx.
    destruct (dict_find k_subtopic c) as [v|]; [|discriminate Ht].
    subst v. intros ->. discriminate Ht.
  - intros (Hx & c & Hc & Hf). exists c. split; [exact Hf|].
    apply filter_In. split; [assumption|].
    unfold get in Hf.
    destruct (dict_find k_subtopic c) as [v|]; [|congruence].
    subst v. destruct x; [congruence|reflexivity].
Qed.

(** X10. Whatever its argument, [get_chapter_topics] returns a list
    without duplicates and without the empty string; each topic is the
    subtopic of a chunk of the corpus, whose chapter contains the argument
    case-insensitively when one is given; and each topic returned for a
    chapter is among the topics returned without an argument. *)
Theorem chapter_topics_wellformed (kc : list chunk) (chapter : option pystr) :
  NoDup (get_chapter_topics kc chapter) /\
  (forall t, In t (get_chapter_topics kc chapter) ->
     t <> [] /\
     (exists c, In c kc /\ get c k_subtopic [] = t /\
                match chapter with
                | Some ch => str_in (lower ch) (lower (get c k_chapter [])) = true
                | None => True
                end) /\
     In t (get_chapter_topics kc None)).
Proof.
  destruct chapter as [[|x ch]|].
  - split; [apply set_order_NoDup|]. intros t Ht.
    change (get_chapter_topics kc (Some [])) with (get_chapter_topics kc None) in Ht.
    pose proof Ht as Ht'. apply chapter_topics_none_In in Ht'.
    destruct Ht' as (Hne & c & Hc & Hs).
    split; [exact Hne|]. split; [|exact Ht].
    exists c. split; [exact Hc|]. split; [exact Hs|].
    assert (Hl0 : lower [] = []) by (now apply lower_nil).
    rewrite Hl0. now destruct (lower (get c k_chapter [])).
  - rewrite chapter_topics_some by discriminate. unfold topics_spec.
    split; [apply first_seen_NoDup|]. intros t Ht.
    apply (proj1 (first_seen_In _ _)) in Ht. apply filter_In in Ht.
    destruct Ht as [Ht Htr].
    apply in_map_iff in Ht. destruct Ht as (c & Hs & Hc).
    apply filter_In in Hc. destruct Hc as [Hc Hm].
    assert (Hne : t <> []) by (intros ->; discriminate Htr).
    split; [exact Hne|]. split.
    + exists c. split; [exact Hc|]. split; [exact Hs|exact Hm].
    + apply chapter_topics_none_In. split; [exact Hne|]. now exists c.
  - split; [apply set_order_NoDup|]. intros t Ht.
    pose proof Ht as Ht'. apply chapter_topics_none_In in Ht'.
    destruct Ht' as (Hne & c & Hc & Hs).
    split; [exact Hne|]. split; [|exact Ht]. now exists c.
Qed.

(** X11. [get_chapter_topics] does not see the case of its argument: two
    chapter names with the same lowercase form get the same topics, in the
    same order. *)
Theorem chapter_topics_ignore_case (kc : list chunk) (ch1 ch2 : pystr) :
  lower ch1 = lower ch2 ->
  get_chapter_topics kc (Some ch1) = get_chapter_topics kc (Some ch2).
Proof.
  intros H.
  assert (Hl : forall topics, topics_loop kc ch1 topics = topics_loop kc ch2 topics).
  { induction kc as [|c kc IH]; intros topics; [reflexivity|].
    cbn [topics_loop]. rewrite H, !IH. reflexivity. }
  destruct ch1 as [|x1 r1], ch2 as [|x2 r2].
  - reflexivity.
  - exfalso. assert (E : lower [] = []) by (now apply lower_nil).
    rewrite E in H. symmetry in H. apply (proj1 (lower_nil _)) in H.
    discriminate H.
  - exfalso. assert (E : lower [] = []) by (now apply lower_nil).
    rewrite E in H. apply (proj1 (lower_nil _)) in H. discriminate H.
  - cbn [get_chapter_topics]. apply Hl.
Qed.
End TopicsMore.

(* ================================================================== *)
(** * More on the loader *)
(* ================================================================== *)








Section ObjectStore.
Context {py : PyRuntime}.

End ObjectStore.

(* ================================================================== *)
(** * The knowledge base of the tutor *)
(* ================================================================== *)

Section InitRag.
Context {py : PyRuntime}.

End InitRag.

(* ================================================================== *)
(** * The fallback questions *)
(* ================================================================== *)

Lemma distinctb_NoDup (l : list pystr) : distinctb l = true -> NoDup l.
Proof.
  induction l as [|x l IH]; intros H; constructor;
    simpl in H; apply andb_true_iff in H; destruct H as [H1 H2].
  - intros Hin. apply negb_true_iff in H1.
    assert (E : mem x l = true).
    { unfold mem. apply existsb_exists. exists x. split; [exact Hin|].
      apply pystr_eqb_refl. }
    congruence.
  - now apply IH.
Qed.

(** Filtering a pool keeps the question texts distinct. *)
Lemma filter_texts_NoDup (keep : quiz_question -> bool)
      (pool : list quiz_question) :
  NoDup (map question pool) -> NoDup (map question (filter keep pool)).
Proof.
  intros Hnd. induction pool as [|q pool IH]; [constructor|].
  cbn [map] in Hnd. apply NoDup_cons_iff in Hnd. destruct Hnd as [Hq Hnd].
  cbn [filter]. destruct (keep q); [|exact (IH Hnd)].
  cbn [map]. apply NoDup_cons; [|exact (IH Hnd)].
  rewrite in_map_iff. intros (q' & Hq' & Hin).
  apply filter_In in Hin. apply Hq. rewrite in_map_iff.
  exists q'. tauto.
Qed.

(** ** Decimal digits *)

Lemma uint_digits_digit (d : Decimal.uint) :
  Forall (fun c => is_digit c = true) (uint_digits d).
Proof. induction d; simpl; constructor; auto. Qed.

Lemma uint_digits_inj (d1 d2 : Decimal.uint) :
  uint_digits d1 = uint_digits d2 -> d1 = d2.
Proof.
  revert d2. induction d1; destruct d2; simpl; intros H;
    try discriminate H; try reflexivity;
      injection H as H; f_equal; auto.
Qed.

Lemma str_of_int_nonneg (z : Z) :
  (0 <= z)%Z -> Forall (fun c => is_digit c = true) (str_of_int z).
Proof.
  intros Hz. destruct z as [|p|p]; try lia.
  - repeat constructor.
  - unfold str_of_int. cbn [Z.to_int]. apply uint_digits_digit.
Qed.

Lemma str_of_int_neg (z : Z) :
  (z < 0)%Z -> exists ds, str_of_int z = 45%N :: ds.
Proof.
  intros Hz. destruct z as [|p|p]; try lia.
  unfold str_of_int. cbn [Z.to_int]. eauto.
Qed.

Lemma str_of_int_injective (a b : Z) : str_of_int a = str_of_int b -> a = b.
Proof.
  intros H.
  rewrite <- (DecimalZ.of_to a), <- (DecimalZ.of_to b). f_equal.
  unfold str_of_int in H.
  destruct (Z.to_int a) as [da|da], (Z.to_int b) as [db|db].
  - f_equal. now apply uint_digits_inj.
  - exfalso. pose proof (uint_digits_digit da) as Hd. rewrite H in Hd.
    inversion Hd as [|? ? Hx _]. discriminate Hx.
  - exfalso. pose proof (uint_digits_digit db) as Hd. rewrite <- H in Hd.
    inversion Hd as [|? ? Hx _]. discriminate Hx.
  - injection H as H. f_equal. now apply uint_digits_inj.
Qed.

(** Two texts that start with a run of digits and go on with a character
    that is no digit: the runs, the characters and the rests agree. *)
Lemma digit_run_split (l1 l2 r1 r2 : pystr) (x y : N) :
  Forall (fun c => is_digit c = true) l1 ->
  Forall (fun c => is_digit c = true) l2 ->
  is_digit x = false -> is_digit y = false ->
  l1 ++ x :: r1 = l2 ++ y :: r2 -> l1 = l2 /\ x = y /\ r1 = r2.
Proof.
  intros H1 H2 Hx Hy E.
  assert (El : l1 = l2).
  { revert l2 H2 E. induction H1 as [|a l1 Ha Hl IH]; intros l2 H2 E.
    - destruct H2 as [|b l2 Hb _]; [reflexivity|].
      simpl in E. injection E as E _. congruence.
    - destruct H2 as [|b l2 Hb H2].
      + simpl in E. injection E as E _. congruence.
      + simpl in E. injection E as E1 E2. subst b. f_equal. now apply IH. }
  subst l2. apply app_inv_head in E. injection E as E1 E2. auto.
Qed.

Section QuizFacts.
Context {py : PyRuntime}.
Variable isspace : N -> bool.

Lemma select_questions_cases (topic : option pystr) :
  select_questions isspace topic = physics_questions \/
  exists t, topic = Some t /\ t <> [] /\
            select_questions isspace topic
            = filter (matches_topic isspace (lower t)) physics_questions /\
            select_questions isspace topic <> [].
Proof.
  destruct topic as [[|x t]|]; [now left| |now left].
  cbn [select_questions].
  destruct (filter (matches_topic isspace (lower (x :: t))) physics_questions)
    as [|q l] eqn:E; [now left|].
  right. exists (x :: t).
  split; [reflexivity|]. split; [discriminate|].
  split; [now rewrite E|discriminate].
Qed.

Lemma select_questions_nonempty (topic : option pystr) :
  select_questions isspace topic <> [].
Proof.
  destruct (select_questions_cases topic) as [->|(t & _ & _ & _ & H)];
    [discriminate|exact H].
Qed.

Lemma select_questions_incl (topic : option pystr) (q : quiz_question) :
  In q (select_questions isspace topic) -> In q physics_questions.
Proof.
  destruct (select_questions_cases topic) as [->|(t & _ & _ & -> & _)];
    [tauto|]. intros H. apply filter_In in H. tauto.
Qed.

Lemma question_at_spec (pool : list quiz_question) (i : nat) :
  pool <> [] ->
  exists q base, question_at pool i = Some q /\ turn_of pool i q base.
Proof.
  intros Hne. unfold question_at, turn_of.
  destruct (length pool) as [|k] eqn:El.
  { destruct pool; [congruence|discriminate El]. }
  rewrite <- El.
  destruct (nth_error pool (i mod length pool)) as [base|] eqn:En.
  - destruct (length pool <=? i) eqn:E.
    + apply Nat.leb_le in E.
      replace (i <? length pool) with false by (symmetry; apply Nat.ltb_ge; lia).
      eexists. exists base. split; [reflexivity|]. cbn. repeat split.
    + apply Nat.leb_gt in E.
      replace (i <? length pool) with true by (symmetry; apply Nat.ltb_lt; lia).
      exists base, base. repeat split.
  - exfalso. apply nth_error_None in En.
    pose proof (Nat.mod_upper_bound i (length pool)). lia.
Qed.

Lemma questions_loop_spec (pool : list quiz_question) (a k : nat) :
  pool <> [] ->
  exists questions,
    questions_loop pool (seq a k) = Some questions /\
    length questions = k /\
    forall i, i < k ->
      exists q base, nth_error questions i = Some q /\ turn_of pool (a + i) q base.
Proof.
  intros Hne. revert a. induction k as [|k IH]; intros a.
  - exists []. repeat split. intros i Hi. lia.
  - cbn [seq questions_loop].
    destruct (question_at_spec a Hne) as (q & base & Hq & Ht).
    destruct (IH (S a)) as (qs & Hqs & Hl & Hi).
    rewrite Hq, Hqs. exists (q :: qs). split; [reflexivity|].
    split; [simpl; lia|].
    intros [|i] Hlt.
    + exists q, base. rewrite Nat.add_0_r. now split.
    + destruct (Hi i) as (q' & base' & Hn & Ht'); [lia|].
      exists q', base'. split; [exact Hn|].
      now replace (a + S i) with (S a + i) by lia.
Qed.

Lemma fallback_turns (n : Z) (topic : option pystr) :
  exists questions,
    fallback_physics_questions isspace n topic = Some questions /\
    length questions = Z.to_nat n /\
    forall i, i < length questions ->
      exists q base,
        nth_error questions i = Some q /\
        turn_of (select_questions isspace topic) i q base.
Proof.
  unfold fallback_physics_questions.
  destruct (@questions_loop_spec (select_questions isspace topic) 0 (Z.to_nat n)
              (select_questions_nonempty topic)) as (qs & Hqs & Hl & Hi).
  exists qs. split; [exact Hqs|]. split; [exact Hl|].
  intros i Hlt. apply (Hi i). lia.
Qed.

Lemma turn_of_base_In (pool : list quiz_question) (i : nat)
      (q base : quiz_question) :
  turn_of pool i q base -> In base pool.
Proof. intros (H & _). eapply nth_error_In; eauto. Qed.

Lemma fallback_In_turn (n : Z) (topic : option pystr)
      (questions : list quiz_question) (q : quiz_question) :
  fallback_physics_questions isspace n topic = Some questions ->
  In q questions ->
  exists i base, i < length questions /\ nth_error questions i = Some q /\
                 turn_of (select_questions isspace topic) i q base.
Proof.
  intros H Hin.
  destruct (fallback_turns n topic) as (qs & Hqs & _ & Hi).
  rewrite H in Hqs. injection Hqs as <-.
  destruct (In_nth_error _ _ Hin) as [i Hn].
  assert (Hlt : i < length questions) by (apply nth_error_Some; congruence).
  destruct (Hi i Hlt) as (q' & base & Hn' & Ht).
  exists i, base. rewrite Hn in Hn'. injection Hn' as <-. auto.
Qed.

Lemma physics_questions_valid (base : quiz_question) :
  In base physics_questions ->
  length (options base) = 4 /\ (0 <= correct base < 4)%Z.
Proof.
  intros Hb.
  assert (Hall : forallb (fun b => (length (options b) =? 4)
                                   && (0 <=? correct b)%Z && (correct b <? 4)%Z)
                         physics_questions = true) by (vm_compute; reflexivity).
  rewrite forallb_forall in Hall. specialize (Hall base Hb).
  apply andb_true_iff in Hall. destruct Hall as [Hall H3].
  apply andb_true_iff in Hall. destruct Hall as [H1 H2].
  apply Nat.eqb_eq in H1. apply Z.leb_le in H2. apply Z.ltb_lt in H3.
  split; [exact H1|lia].
Qed.

Lemma fallback_four_options (n : Z) (topic : option pystr)
      (questions : list quiz_question) (q : quiz_question) :
  fallback_physics_questions isspace n topic = Some questions ->
  In q questions -> length (options q) = 4.
Proof.
  intros H Hin.
  destruct (@fallback_In_turn _ _ _ _ H Hin) as (i & base & _ & _ & Ht).
  pose proof (@select_questions_incl _ _ (turn_of_base_In Ht)) as Hb.
  destruct Ht as (_ & Ho & _). rewrite Ho.
  now apply physics_questions_valid.
Qed.

(** X16. [_fallback_physics_questions] never raises and returns exactly
    [n] questions, none for [n <= 0].  Question [i] is the question of the
    selected pool at position [i] modulo the size of the pool, with its
    options, answer and explanation unchanged; its text is unchanged on the
    first pass through the pool and carries the prefix [[Q<i+1>] ] from
    then on. *)
Theorem fallback_questions_shape (n : Z) (topic : option pystr) :
  exists questions,
    fallback_physics_questions isspace n topic = Some questions /\
    len questions = Z.max 0 n /\
    forall i, i < length questions ->
      exists q base,
        nth_error questions i = Some q /\
        turn_of (select_questions isspace topic) i q base.
Proof.
  destruct (fallback_turns n topic) as (qs & Hqs & Hl & Hi).
  exists qs. split; [exact Hqs|]. split; [unfold len; lia|exact Hi].
Qed.

(** X17. Every question that [_fallback_physics_questions] returns has
    exactly four options and an answer index from 0 to 3, and it has the
    options, the answer and the explanation of one of the ten built-in
    questions. *)
Theorem fallback_questions_valid (n : Z) (topic : option pystr)
        (questions : list quiz_question) :
  fallback_physics_questions isspace n topic = Some questions ->
  forall q, In q questions ->
    length (options q) = 4 /\
    (0 <= correct q < 4)%Z /\
    exists base, In base physics_questions /\
                 options q = options base /\ correct q = correct base /\
                 explanation q = explanation base.
Proof.
  intros H q Hin.
  destruct (@fallback_In_turn _ _ _ _ H Hin) as (i & base & _ & _ & Ht).
  pose proof (@select_questions_incl _ _ (turn_of_base_In Ht)) as Hb.
  destruct Ht as (_ & Ho & Hc & He & _).
  destruct (physics_questions_valid Hb) as [H1 H2].
  rewrite Ho, Hc. split; [exact H1|]. split; [exact H2|].
  exists base. auto.
Qed.

(** X18. With a topic that is not empty: when a word of the lowercased
    topic occurs in the lowercased text or explanation of some built-in
    question, every question returned comes from a built-in question with
    that property; when no built-in question has it, the topic is ignored
    and the result is the one for no topic. *)
Theorem fallback_questions_on_topic (n : Z) (t : pystr)
        (questions : list quiz_question) :
  t <> [] ->
  fallback_physics_questions isspace n (Some t) = Some questions ->
  ((exists base, In base physics_questions /\
                 matches_topic isspace (lower t) base = true) ->
   forall q, In q questions ->
     exists base, In base physics_questions /\
                  matches_topic isspace (lower t) base = true /\
                  options q = options base /\ correct q = correct base /\
                  explanation q = explanation base) /\
  ((forall base, In base physics_questions ->
                 matches_topic isspace (lower t) base = false) ->
   fallback_physics_questions isspace n None = Some questions).
Proof.
  intros Hne H. split.
  - intros (b0 & Hb0 & Hm0) q Hin.
    destruct (@fallback_In_turn _ _ _ _ H Hin) as (i & base & _ & _ & Ht).
    pose proof (turn_of_base_In Ht) as Hb.
    destruct Ht as (_ & Ho & Hc & He & _).
    destruct t as [|x t]; [congruence|]. cbn [select_questions] in Hb.
    destruct (filter (matches_topic isspace (lower (x :: t))) physics_questions)
      as [|q0 l] eqn:E.
    + exfalso.
      assert (Hin0 : In b0 (filter (matches_topic isspace (lower (x :: t)))
                                   physics_questions))
        by (apply filter_In; now split).
      rewrite E in Hin0. contradiction.
    + rewrite <- E in Hb. apply filter_In in Hb. destruct Hb as [Hb Hm].
      exists base. auto.
  - intros Hnone. rewrite <- H. unfold fallback_physics_questions.
    destruct t as [|x t]; [congruence|]. cbn [select_questions].
    destruct (filter (matches_topic isspace (lower (x :: t))) physics_questions)
      as [|q0 l] eqn:E; [reflexivity|].
    exfalso.
    assert (Hin0 : In q0 (filter (matches_topic isspace (lower (x :: t)))
                                 physics_questions))
      by (rewrite E; now left).
    apply filter_In in Hin0. destruct Hin0 as [Hb Hm].
    rewrite (Hnone q0 Hb) in Hm. discriminate Hm.
Qed.

Lemma pool_texts_NoDup (topic : option pystr) :
  NoDup (map question (select_questions isspace topic)).
Proof.
  assert (H : NoDup (map question physics_questions))
    by (apply distinctb_NoDup; vm_compute; reflexivity).
  destruct (select_questions_cases topic) as [->|(t & _ & _ & -> & _)];
    [exact H|]. now apply filter_texts_NoDup.
Qed.

Lemma pool_text_head (topic : option pystr) (base : quiz_question) :
  In base (select_questions isspace topic) ->
  exists c r, question base = c :: r /\ c <> 91%N.
Proof.
  intros H. apply select_questions_incl in H.
  assert (Hall : forallb (fun b => match question b with
                                   | c :: _ => negb (c =? 91)%N
                                   | [] => false
                                   end) physics_questions = true)
    by (vm_compute; reflexivity).
  rewrite forallb_forall in Hall. specialize (Hall base H).
  destruct (question base) as [|c r]; [discriminate Hall|].
  exists c, r. split; [reflexivity|].
  apply negb_true_iff in Hall. now apply N.eqb_neq.
Qed.

Lemma turn_text_inj (topic : option pystr) (i j : nat)
      (qi qj bi bj : quiz_question) :
  turn_of (select_questions isspace topic) i qi bi ->
  turn_of (select_questions isspace topic) j qj bj ->
  question qi = question qj -> i = j.
Proof.
  set (pool := select_questions isspace topic).
  assert (Hne : length pool <> 0).
  { pose proof (select_questions_nonempty topic). fold pool in H.
    destruct pool; [congruence|discriminate]. }
  assert (Hp : u "[Q" = [91; 81]%N) by (vm_compute; reflexivity).
  assert (Hs : u "] " = [93; 32]%N) by (vm_compute; reflexivity).
  intros (Hbi & _ & _ & _ & Hti) (Hbj & _ & _ & _ & Htj) E.
  rewrite Hti, Htj in E. rewrite Hp, Hs in E.
  destruct (i <? length pool) eqn:Ei; destruct (j <? length pool) eqn:Ej.
  - apply Nat.ltb_lt in Ei. apply Nat.ltb_lt in Ej.
    rewrite Nat.mod_small in Hbi, Hbj by assumption.
    pose proof (pool_texts_NoDup topic) as Hnd. fold pool in Hnd.
    rewrite NoDup_nth_error in Hnd.
    apply Hnd; [rewrite length_map; lia|].
    rewrite !nth_error_map, Hbi, Hbj. cbn. now rewrite E.
  - exfalso. destruct (@pool_text_head topic bi) as (c & r & Hc & Hn).
    { eapply nth_error_In; eauto. }
    rewrite Hc in E. cbn in E. injection E as E _. contradiction.
  - exfalso. destruct (@pool_text_head topic bj) as (c & r & Hc & Hn).
    { eapply nth_error_In; eauto. }
    rewrite Hc in E. cbn in E. injection E as E _. congruence.
  - cbn [app] in E. injection E as E.
    apply digit_run_split in E;
      [|apply str_of_int_nonneg; lia|apply str_of_int_nonneg; lia
       |reflexivity|reflexivity].
    destruct E as (E & _). apply str_of_int_injective in E. lia.
Qed.

(** X19. The texts of the questions that [_fallback_physics_questions]
    returns are pairwise distinct, however large [n] is: the prefix that a
    repeated question gets tells it from its earlier copies and from every
    other question. *)
Theorem fallback_questions_distinct (n : Z) (topic : option pystr)
        (questions : list quiz_question) :
  fallback_physics_questions isspace n topic = Some questions ->
  NoDup (map question questions).
Proof.
  intros H.
  destruct (fallback_turns n topic) as (qs & Hqs & _ & Hi).
  rewrite H in Hqs. injection Hqs as <-.
  apply NoDup_nth_error. intros i j Hlt E.
  rewrite length_map in Hlt. rewrite !nth_error_map in E.
  destruct (Hi i Hlt) as (qi & bi & Hni & Hti).
  rewrite Hni in E. cbn in E.
  destruct (nth_error questions j) as [qj|] eqn:Hnj; [|discriminate E].
  cbn in E. injection E as E.
  assert (Hj : j < length questions) by (apply nth_error_Some; congruence).
  destruct (Hi j Hj) as (qj' & bj & Hnj' & Htj).
  rewrite Hnj in Hnj'. injection Hnj' as <-.
  eapply turn_text_inj; eauto.
Qed.
End QuizFacts.

(* ================================================================== *)
(** * The quiz from the model's answer *)
(* ================================================================== *)

Lemma valid_question_true (q : json) :
  valid_question q = Some true -> well_formed_question q.
Proof.
  unfold valid_question, well_formed_question.
  destruct (has_keys required_keys q) as [[|]|]; try discriminate.
  destruct (json_item q (u "options")) as [opts|]; [|discriminate].
  destruct (json_len opts) as [k|] eqn:El; [|discriminate].
  intros H. injection H as H. apply Z.eqb_eq in H. subst k.
  split; [reflexivity|]. exists opts. now split.
Qed.

Lemma validate_spec (questions acc valid : list json) :
  validate questions acc = Some valid ->
  Forall well_formed_question acc -> Forall well_formed_question valid.
Proof.
  revert acc. induction questions as [|q rest IH]; intros acc H Hacc.
  - simpl in H. injection H as <-. exact Hacc.
  - simpl in H. destruct (valid_question q) as [[|]|] eqn:E; [| |discriminate].
    + apply (IH _ H). apply Forall_app. split; [exact Hacc|].
      constructor; [now apply valid_question_true|constructor].
    + exact (IH _ H Hacc).
Qed.

Lemma question_json_well_formed (q : quiz_question) :
  length (options q) = 4 -> well_formed_question (question_json q).
Proof.
  intros H. split; [reflexivity|].
  exists (JList (map JStr (options q))). split; [reflexivity|].
  cbn [json_len]. unfold len. now rewrite length_map, H.
Qed.

Section GenerateQuizFacts.
Context {py : PyRuntime}.
Variable isspace : N -> bool.

(** X20. Whatever the model answers, and also when the call of the model
    or the lookup of the context raises, [generate_quiz_questions] raises
    nothing and returns a list of questions; for [n >= 0] there are at most
    [n] of them; and each one has the keys [question], [options] and
    [correct] and exactly four options, whether it comes from the model's
    answer or from the fallback questions. *)
Theorem generate_quiz_questions_contract (response : option pystr) (n : Z)
        (topic : option pystr) :
  exists questions,
    generate_quiz_questions isspace response n topic = Some questions /\
    ((0 <= n)%Z -> (len questions <= n)%Z) /\
    Forall well_formed_question questions.
Proof.
  assert (Hfb : exists questions,
             option_map (map question_json)
                        (fallback_physics_questions isspace n topic)
             = Some questions /\
             ((0 <= n)%Z -> (len questions <= n)%Z) /\
             Forall well_formed_question questions).
  { destruct (fallback_turns isspace n topic) as (qs & Hqs & Hl & _).
    rewrite Hqs. exists (map question_json qs). split; [reflexivity|]. split.
    - intros Hn. unfold len in *. rewrite length_map. lia.
    - rewrite Forall_forall. intros j Hj. apply in_map_iff in Hj.
      destruct Hj as (q & <- & Hq). apply question_json_well_formed.
      exact (@fallback_four_options py isspace n topic qs q Hqs Hq). }
  unfold generate_quiz_questions. destruct response as [text|]; [|exact Hfb].
  destruct (questions_of_response text n) as [qs|] eqn:E; [|exact Hfb].
  exists qs. split; [reflexivity|].
  unfold questions_of_response in E.
  destruct (search_brackets text) as [jt|]; [|discriminate E].
  destruct (json_loads jt) as [[| | | | |[|q rest]|]|]; try discriminate E.
  destruct (validate (q :: rest) []) as [[|v vs]|] eqn:Ev; try discriminate E.
  injection E as <-. split.
  - intros Hn. now apply slice_to_len.
  - pose proof (@validate_spec _ _ _ Ev (Forall_nil _)) as Hv.
    rewrite Forall_forall in *. intros x Hx. apply Hv.
    eapply slice_to_In; eauto.
Qed.
End GenerateQuizFacts.

(* ================================================================== *)
(** * The focus areas and the study time *)
(* ================================================================== *)

Lemma bounds_are_ints :
  float_of_int 40 = f40 /\ float_of_int 60 = f60 /\ float_of_int 80 = f80.
Proof. repeat split; vm_compute; reflexivity. Qed.

Section FocusFacts.
Variable format_1f : float -> pystr.

Lemma focus_line_head (row : performance_row) :
  focus_line format_1f row <> recommendation.
Proof.
  destruct row as [[subject avg] cnt]. unfold focus_line.
  intros E. apply (f_equal (hd 0%N)) in E.
  destruct (flt avg f40); [|destruct (flt avg f60); [|destruct (flt avg f80)]];
    vm_compute in E; discriminate E.
Qed.

(** X21. [get_focus_areas] returns between one and five lines.  On a
    performance that is not empty the lines are those of the first five
    rows, in their order, and the recommendation to revise the NCERT
    examples is among them exactly when some average is below 60 and there
    are fewer than five rows: from five rows on it is cut off. *)
Theorem focus_areas_shape (quiz_performance : list performance_row) :
  0 < length (get_focus_areas format_1f quiz_performance) <= 5 /\
  (quiz_performance <> [] ->
   firstn (length quiz_performance) (get_focus_areas format_1f quiz_performance)
   = map (focus_line format_1f) (firstn 5 quiz_performance)) /\
  (In recommendation (get_focus_areas format_1f quiz_performance) <->
   length quiz_performance < 5 /\
   exists row, In row quiz_performance /\ flt (snd (fst row)) f60 = true).
Proof.
  destruct quiz_performance as [|r0 rest] eqn:Eq.
  { split; [simpl; lia|]. split; [congruence|]. split.
    - intros H. vm_compute in H.
      repeat (destruct H as [H|H]; [discriminate H|]). contradiction.
    - intros (_ & row & [] & _). }
  rewrite <- Eq. assert (Hne : quiz_performance <> []) by (subst; discriminate).
  assert (Hlen : 0 < length quiz_performance) by (subst; simpl; lia).
  assert (Hg : get_focus_areas format_1f quiz_performance
               = firstn 5 (map (focus_line format_1f) quiz_performance
                           ++ if existsb (fun row => flt (snd (fst row)) f60)
                                         quiz_performance
                              then [recommendation] else [])).
  { subst quiz_performance. unfold get_focus_areas, slice_to.
    cbn [Z.leb Z.compare Z.to_nat Pos.to_nat Pos.iter_op Nat.add].
    destruct (existsb _ _); [reflexivity|now rewrite app_nil_r]. }
  clear Eq r0 rest. rewrite Hg.
  set (lines := map (focus_line format_1f) quiz_performance).
  set (tail := if existsb _ _ then [recommendation] else []).
  assert (Hl : length lines = length quiz_performance)
    by (unfold lines; apply length_map).
  split; [|split].
  - rewrite length_firstn, length_app, Hl. lia.
  - intros _. rewrite firstn_firstn.
    destruct (Nat.le_gt_cases (length quiz_performance) 5) as [L|L].
    + rewrite Nat.min_l by exact L.
      rewrite firstn_app, Hl, Nat.sub_diag, firstn_O, app_nil_r.
      rewrite <- Hl, firstn_all. unfold lines.
      rewrite (firstn_all2 (n := 5)) by lia. reflexivity.
    + rewrite Nat.min_r by lia.
      rewrite firstn_app, Hl.
      replace (5 - length quiz_performance) with 0 by lia.
      rewrite firstn_O, app_nil_r. unfold lines. now rewrite firstn_map.
  - split.
    + intros Hin.
      rewrite firstn_app, Hl in Hin. apply in_app_or in Hin.
      destruct Hin as [Hin|Hin].
      * exfalso. apply firstn_subset in Hin. unfold lines in Hin.
        apply in_map_iff in Hin. destruct Hin as (row & Hr & _).
        now apply (focus_line_head row).
      * destruct (5 - length quiz_performance) as [|k] eqn:Ek;
          [rewrite firstn_O in Hin; contradiction|].
        split; [lia|]. apply firstn_subset in Hin. unfold tail in Hin.
        destruct (existsb (fun row => flt (snd (fst row)) f60) quiz_performance)
          eqn:Ex; [|contradiction].
        apply existsb_exists in Ex. exact Ex.
    + intros (L & row & Hr & Hs).
      rewrite firstn_all2 by (rewrite length_app, Hl; unfold tail;
                              destruct (existsb _ _); simpl; lia).
      apply in_or_app. right. unfold tail.
      replace (existsb (fun row => flt (snd (fst row)) f60) quiz_performance)
        with true; [now left|].
      symmetry. apply existsb_exists. now exists row.
Qed.
End FocusFacts.

(** X22. Below one day, [format_study_time] tells the duration: two
    numbers of minutes below 1440 that are shown alike are equal.  From one
    day on the minutes are not shown: a duration is shown as the start of
    its hour is. *)
Theorem format_study_time_reading :
  (forall m1 m2 : Z,
      (m1 < 1440)%Z -> (m2 < 1440)%Z ->
      format_study_time m1 = format_study_time m2 -> m1 = m2) /\
  (forall m : Z,
      (1440 <= m)%Z ->
      format_study_time m = format_study_time (m - m mod 60)).
Proof.
  assert (Hmin : u " minutes" = 32%N :: u "minutes") by (vm_compute; reflexivity).
  assert (Hh : u "h" = [104%N]) by (vm_compute; reflexivity).
  assert (Hhs : u "h " = [104%N; 32%N]) by (vm_compute; reflexivity).
  assert (Hm : u "m" = [109%N]) by (vm_compute; reflexivity).
  split.
  - assert (Href : forall m : Z, (m < 1440)%Z ->
               (m < 60 /\ format_study_time m = str_of_int m ++ 32%N :: u "minutes")%Z
               \/ (60 <= m /\ 0 < m mod 60 /\
                   format_study_time m
                   = str_of_int (m / 60) ++ 104%N :: 32%N :: str_of_int (m mod 60)
                                ++ [109%N])%Z
               \/ (60 <= m /\ m mod 60 = 0 /\
                   format_study_time m = str_of_int (m / 60) ++ [104%N] ++ [])%Z).
    { intros m Hlt. unfold format_study_time.
      destruct (m <? 60)%Z eqn:E1.
      - left. apply Z.ltb_lt in E1. now rewrite Hmin.
      - right. apply Z.ltb_ge in E1.
        replace (m <? 1440)%Z with true by (symmetry; apply Z.ltb_lt; lia).
        cbv zeta. pose proof (Z.mod_pos_bound m 60 ltac:(lia)) as Hb.
        destruct (m mod 60 >? 0)%Z eqn:E2.
        + left. rewrite Hhs, Hm. cbn [app]. split; [lia|]. split; [lia|reflexivity].
        + right. rewrite Hh. split; [lia|]. split; [lia|reflexivity]. }
    intros m1 m2 H1 H2 E.
    assert (Hd : forall m : Z, (60 <= m)%Z ->
                               Forall (fun c => is_digit c = true)
                                      (str_of_int (m / 60)))
      by (intros m Hge; apply str_of_int_nonneg; apply Z.div_pos; lia).
    assert (Hstart : forall (m : Z) (l r r' : pystr),
               (m < 60)%Z -> Forall (fun c => is_digit c = true) l ->
               str_of_int m ++ 32%N :: r = l ++ 104%N :: r' -> False).
    { intros m l r r' Hm60 Hl Eq.
      destruct (Z.lt_ge_cases m 0) as [Hn|Hp].
      - destruct (str_of_int_neg Hn) as [ds Hds]. rewrite Hds in Eq.
        destruct Hl as [|c l Hc Hl]; cbn [app] in Eq; injection Eq as Ec _.
        + discriminate Ec.
        + subst c. discriminate Hc.
      - apply digit_run_split in Eq; auto using str_of_int_nonneg.
        destruct Eq as (_ & Ex & _). discriminate Ex. }
    destruct (Href m1 H1) as [(A1 & F1)|[(A1 & B1 & F1)|(A1 & B1 & F1)]];
      destruct (Href m2 H2) as [(A2 & F2)|[(A2 & B2 & F2)|(A2 & B2 & F2)]];
      rewrite F1, F2 in E.
    + apply app_inv_tail in E. now apply str_of_int_injective.
    + exfalso. eapply (Hstart m1); [exact A1|apply (Hd m2 A2)|exact E].
    + exfalso. eapply (Hstart m1); [exact A1|apply (Hd m2 A2)|exact E].
    + exfalso. symmetry in E.
      eapply (Hstart m2); [exact A2|apply (Hd m1 A1)|exact E].
    + apply digit_run_split in E; auto. destruct E as (Eh & _ & Er).
      injection Er as Er. apply app_inv_tail in Er.
      apply str_of_int_injective in Eh. apply str_of_int_injective in Er.
      rewrite (Z.div_mod m1 60), (Z.div_mod m2 60) by lia. now rewrite Eh, Er.
    + exfalso. apply digit_run_split in E; auto. destruct E as (_ & _ & Er).
      discriminate Er.
    + exfalso. symmetry in E.
      eapply (Hstart m2); [exact A2|apply (Hd m1 A1)|exact E].
    + exfalso. apply digit_run_split in E; auto. destruct E as (_ & _ & Er).
      discriminate Er.
    + apply app_inv_tail in E. apply str_of_int_injective in E.
      rewrite (Z.div_mod m1 60), (Z.div_mod m2 60) by lia. now rewrite E, B1, B2.
  - intros m Hge. unfold format_study_time.
    assert (Hm' : (1440 <= m - m mod 60)%Z)
      by (Z.div_mod_to_equations; lia).
    replace (m <? 60)%Z with false by (symmetry; apply Z.ltb_ge; lia).
    replace (m <? 1440)%Z with false by (symmetry; apply Z.ltb_ge; lia).
    replace (m - m mod 60 <? 60)%Z with false by (symmetry; apply Z.ltb_ge; lia).
    replace (m - m mod 60 <? 1440)%Z with false
      by (symmetry; apply Z.ltb_ge; lia).
    cbv zeta.
    replace ((m - m mod 60) / 1440)%Z with (m / 1440)%Z
      by (Z.div_mod_to_equations; lia).
    replace (((m - m mod 60) mod 1440) / 60)%Z with ((m mod 1440) / 60)%Z
      by (Z.div_mod_to_equations; lia).
    reflexivity.
Qed.

(* ================================================================== *)
(** * Instances on the executable runtime *)
(* ================================================================== *)


Lemma search_relevant_chunks_spec_witness :
  (0 <= 3)%Z /\
  search_spec (py := ascii_runtime) sample_chunks (u "Ohm's law") 3
    (search_relevant_chunks (py := ascii_runtime) sample_chunks
                            (u "Ohm's law") 3).
Proof.
  split; [lia|].
  apply (@search_relevant_chunks_spec ascii_runtime sample_chunks
                                      (u "Ohm's law") 3). lia.
Defined.

(** With [top_k = -1] the slice drops the last ranked chunk: one chunk is
    returned, which is more than [top_k]. *)
Lemma search_negative_top_k :
  search_relevant_chunks (py := ascii_runtime) two_chunks (u "a") (-1)
  = [chunk_a] /\
  ~ search_spec (py := ascii_runtime) two_chunks (u "a") (-1)
      (search_relevant_chunks (py := ascii_runtime) two_chunks (u "a") (-1)).
Proof.
  split; [vm_compute; reflexivity|].
  intros [H _]. vm_compute in H. apply H. reflexivity.
Qed.

Lemma get_context_greedy_witness :
  (0 <= 1200)%Z /\
  greedy_spec (ranked_blocks (py := ascii_runtime) sample_chunks (u "Ohm's law"))
              1200
              (included_blocks (py := ascii_runtime) sample_chunks
                               (u "Ohm's law") 1200) /\
  (search_relevant_chunks (py := ascii_runtime) sample_chunks (u "Ohm's law") 3
   <> [] ->
   get_context_for_query (py := ascii_runtime) sample_chunks (u "Ohm's law") 1200
   = join [10%N] (included_blocks (py := ascii_runtime) sample_chunks
                                  (u "Ohm's law") 1200)).
Proof.
  split; [lia|].
  apply (@get_context_greedy ascii_runtime sample_chunks (u "Ohm's law") 1200).
  lia.
Defined.

(** With a budget of -1 no block is kept, and the empty sum, 0, is above
    the budget. *)
Lemma greedy_negative_budget :
  included_blocks (py := ascii_runtime) two_chunks (u "a") (-1) = [] /\
  get_context_for_query (py := ascii_runtime) two_chunks (u "a") (-1) = [] /\
  ~ greedy_spec (ranked_blocks (py := ascii_runtime) two_chunks (u "a")) (-1)
      (included_blocks (py := ascii_runtime) two_chunks (u "a") (-1)).
Proof.
  split; [vm_compute; reflexivity|]. split; [vm_compute; reflexivity|].
  intros (n & _ & _ & H & _). vm_compute in H. apply H. reflexivity.
Qed.


(** A store path without a directory part makes [os.makedirs] fail on the
    empty directory name, whatever the file system allows. *)
Lemma load_bare_file_name :
  load_knowledge_base empty_world (u "kb.json") = Raise FileNotFoundError.
Proof. vm_compute. reflexivity. Qed.



Lemma get_chapter_topics_spec_witness :
  u "Electricity" <> [] /\
  get_chapter_topics (py := ascii_runtime) sample_chunks (Some (u "Electricity"))
  = topics_spec (py := ascii_runtime) sample_chunks (u "Electricity") /\
  get_chapter_topics (py := ascii_runtime) sample_chunks (Some (u "Electricity"))
  = electricity_topics.
Proof.
  assert (H : u "Electricity" <> [])
    by (intros E; vm_compute in E; discriminate E).
  split; [exact H|].
  apply (@get_chapter_topics_spec ascii_runtime sample_chunks
                                  (u "Electricity") H).
Defined.

(** A chunk of the chapter with an empty subtopic: the loop skips it, while
    the distinct subtopics of the matching chunks include the empty string. *)
Lemma topics_empty_subtopic :
  get_chapter_topics (py := ascii_runtime) [unlabelled_chunk] (Some (u "X")) = [] /\
  topics_claimed (py := ascii_runtime) [unlabelled_chunk] (u "X") = [[]] /\
  get_chapter_topics (py := ascii_runtime) [unlabelled_chunk] (Some (u "X"))
  <> topics_claimed (py := ascii_runtime) [unlabelled_chunk] (u "X").
Proof.
  split; [vm_compute; reflexivity|]. split; [vm_compute; reflexivity|].
  intros E. vm_compute in E. discriminate E.
Qed.

Lemma get_context_length_witness :
  (0 <= 28)%Z /\
  get_context_for_query (py := ascii_runtime) two_chunks (u "a") 28
  <> fallback_context /\
  len (get_context_for_query (py := ascii_runtime) two_chunks (u "a") 28)
  = (sum_len (included_blocks (py := ascii_runtime) two_chunks (u "a") 28)
     + Z.of_nat (length (included_blocks (py := ascii_runtime)
                                         two_chunks (u "a") 28) - 1))%Z /\
  (len (get_context_for_query (py := ascii_runtime) two_chunks (u "a") 28)
   <= 28 + 2)%Z.
Proof.
  assert (H : get_context_for_query (py := ascii_runtime) two_chunks (u "a") 28
              <> fallback_context)
    by (intros E; vm_compute in E; discriminate E).
  split; [lia|]. split; [exact H|].
  destruct (@get_context_length ascii_runtime two_chunks (u "a") 28)
    as (H1 & _ & H3 & _); [lia|exact H|].
  split; [exact H1|exact H3].
Defined.

(** Four chunks with empty labels all score 2.7 for the empty query; with
    [top_k = 3] the first three are returned and the fourth is not. *)
Lemma empty_query_truncated :
  In (bare "Force") four_bare_chunks /\
  total_score (py := ascii_runtime) [] (bare "Force") = f2_7 /\
  search_relevant_chunks (py := ascii_runtime) four_bare_chunks [] 3
  = [bare "Light"; bare "Sound"; bare "Heat"] /\
  ~ In (bare "Force")
       (search_relevant_chunks (py := ascii_runtime) four_bare_chunks [] 3).
Proof.
  split; [simpl; tauto|]. split; [vm_compute; reflexivity|].
  split; [vm_compute; reflexivity|].
  intros H. vm_compute in H.
  repeat (destruct H as [H|H]; [discriminate H|]). exact H.
Qed.

Lemma empty_query_score_witness :
  get bare_chunk k_subtopic [] = [] /\
  get bare_chunk k_chapter [] = [] /\
  get bare_chunk k_chunk [] <> [] /\
  In bare_chunk [bare_chunk] /\
  total_score (py := ascii_runtime) [] bare_chunk = f2_7 /\
  search_relevant_chunks (py := ascii_runtime) [bare_chunk] [] 3 = [bare_chunk].
Proof.
  assert (Ht : get bare_chunk k_chunk [] <> [])
    by (intros E; vm_compute in E; discriminate E).
  split; [reflexivity|]. split; [reflexivity|]. split; [exact Ht|].
  split; [now left|].
  destruct (@empty_query_score ascii_runtime bare_chunk [bare_chunk]
                               eq_refl eq_refl Ht (or_introl eq_refl))
    as (Hs & _ & _).
  split; [exact Hs|vm_compute; reflexivity].
Defined.

(** ** Instances of the further properties *)

Lemma search_best_first_witness :
  (0 <= 1)%Z /\
  In chunk_b_a two_chunks /\
  fgt (total_score (py := ascii_runtime) (u "a") chunk_b_a) f0_1 = true /\
  ~ In chunk_b_a (search_relevant_chunks (py := ascii_runtime) two_chunks (u "a") 1) /\
  len (search_relevant_chunks (py := ascii_runtime) two_chunks (u "a") 1) = 1%Z /\
  forall r, In r (search_relevant_chunks (py := ascii_runtime) two_chunks (u "a") 1) ->
            fge (total_score (py := ascii_runtime) (u "a") r)
                (total_score (py := ascii_runtime) (u "a") chunk_b_a) = true.
Proof.
  assert (H1 : (0 <= 1)%Z) by lia.
  assert (H2 : In chunk_b_a two_chunks) by (simpl; tauto).
  assert (H3 : fgt (total_score (py := ascii_runtime) (u "a") chunk_b_a) f0_1
               = true) by (vm_compute; reflexivity).
  assert (H4 : ~ In chunk_b_a (search_relevant_chunks (py := ascii_runtime)
                                 two_chunks (u "a") 1)).
  { intros H. vm_compute in H. destruct H as [H|H]; [discriminate H|exact H]. }
  split; [exact H1|]. split; [exact H2|]. split; [exact H3|]. split; [exact H4|].
  apply (@search_best_first ascii_runtime two_chunks (u "a") 1 chunk_b_a
           H1 H2 H3 H4).
Defined.

Lemma search_all_above_floor_witness :
  (len two_chunks <= 2)%Z /\
  Permutation
    (search_relevant_chunks (py := ascii_runtime) two_chunks (u "a") 2)
    (filter (fun c => fgt (total_score (py := ascii_runtime) (u "a") c) f0_1)
            two_chunks).
Proof.
  assert (H : (len two_chunks <= 2)%Z) by (vm_compute; discriminate).
  split; [exact H|].
  apply (@search_all_above_floor ascii_runtime two_chunks (u "a") 2 H).
Defined.

Lemma search_ignores_irrelevant_witness :
  fgt (total_score (py := ascii_runtime) (u "a") far_chunk) f0_1 = false /\
  search_relevant_chunks (py := ascii_runtime)
                         ([chunk_a] ++ far_chunk :: [chunk_b_a]) (u "a") 3
  = search_relevant_chunks (py := ascii_runtime) ([chunk_a] ++ [chunk_b_a])
                           (u "a") 3.
Proof.
  assert (H : fgt (total_score (py := ascii_runtime) (u "a") far_chunk) f0_1
              = false) by (vm_compute; reflexivity).
  split; [exact H|].
  apply (@search_ignores_irrelevant ascii_runtime [chunk_a] [chunk_b_a]
           far_chunk (u "a") 3 H).
Defined.

Lemma search_ignores_query_case_witness :
  lower (PyRuntime := ascii_runtime) (u "OHM") = lower (u "ohm") /\
  search_relevant_chunks (py := ascii_runtime) sample_chunks (u "OHM") 3
  = search_relevant_chunks (py := ascii_runtime) sample_chunks (u "ohm") 3.
Proof.
  assert (H : lower (PyRuntime := ascii_runtime) (u "OHM") = lower (u "ohm"))
    by (vm_compute; reflexivity).
  split; [exact H|].
  apply (@search_ignores_query_case ascii_runtime sample_chunks
           (u "OHM") (u "ohm") H).
Defined.

Lemma empty_query_no_match_witness :
  (forall c, In c [ohm_chunk] ->
             get c k_chunk [] <> [] /\ get c k_subtopic [] <> []
             /\ get c k_chapter [] <> []) /\
  search_relevant_chunks (py := ascii_runtime) [ohm_chunk] [] 3 = [] /\
  get_context_for_query (py := ascii_runtime) [ohm_chunk] [] 1200
  = fallback_context.
Proof.
  assert (H : forall c, In c [ohm_chunk] ->
                        get c k_chunk [] <> [] /\ get c k_subtopic [] <> []
                        /\ get c k_chapter [] <> []).
  { intros c [<-|[]].
    repeat split; intros E; vm_compute in E; discriminate E. }
  split; [exact H|].
  destruct (@empty_query_no_match ascii_runtime [ohm_chunk] H) as (_ & Hs & Hc).
  split; [apply Hs|apply Hc].
Defined.

Lemma get_context_whole_ranking_witness :
  (sum_len (ranked_blocks (py := ascii_runtime) two_chunks (u "a")) <= 100)%Z /\
  included_blocks (py := ascii_runtime) two_chunks (u "a") 100
  = ranked_blocks (py := ascii_runtime) two_chunks (u "a").
Proof.
  assert (H : (sum_len (ranked_blocks (py := ascii_runtime) two_chunks (u "a"))
               <= 100)%Z) by (vm_compute; discriminate).
  split; [exact H|].
  apply (@get_context_whole_ranking ascii_runtime two_chunks (u "a") 100 H).
Defined.

Lemma get_context_budget_monotone_witness :
  (14 <= 28)%Z /\
  exists n, included_blocks (py := ascii_runtime) two_chunks (u "a") 14
            = firstn n (included_blocks (py := ascii_runtime) two_chunks (u "a") 28).
Proof.
  assert (H : (14 <= 28)%Z) by lia.
  split; [exact H|].
  apply (@get_context_budget_monotone ascii_runtime two_chunks (u "a") 14 28 H).
Defined.

Lemma chapter_topics_ignore_case_witness :
  lower (PyRuntime := ascii_runtime) (u "ELECTRICITY") = lower (u "electricity") /\
  get_chapter_topics (py := ascii_runtime) sample_chunks (Some (u "ELECTRICITY"))
  = get_chapter_topics (py := ascii_runtime) sample_chunks (Some (u "electricity")).
Proof.
  assert (H : lower (PyRuntime := ascii_runtime) (u "ELECTRICITY")
              = lower (u "electricity")) by (vm_compute; reflexivity).
  split; [exact H|].
  apply (@chapter_topics_ignore_case ascii_runtime sample_chunks
           (u "ELECTRICITY") (u "electricity") H).
Defined.




Lemma fallback_questions_valid_witness :
  fallback_physics_questions (py := ascii_runtime) ascii_isspace 12 None
  = Some twelve_questions /\
  forall q, In q twelve_questions ->
    length (options q) = 4 /\ (0 <= correct q < 4)%Z.
Proof.
  assert (H : fallback_physics_questions (py := ascii_runtime) ascii_isspace 12 None
              = Some twelve_questions) by (vm_compute; reflexivity).
  split; [exact H|].
  intros q Hq.
  destruct (@fallback_questions_valid ascii_runtime ascii_isspace 12 None
              twelve_questions H q Hq) as (H1 & H2 & _).
  now split.
Defined.

Lemma fallback_questions_on_topic_witness :
  u "Ohm" <> [] /\
  fallback_physics_questions (py := ascii_runtime) ascii_isspace 3 (Some (u "Ohm"))
  = Some ohm_questions /\
  (exists base, In base physics_questions /\
                matches_topic (py := ascii_runtime) ascii_isspace
                              (lower (u "Ohm")) base = true) /\
  forall q, In q ohm_questions ->
    exists base, In base physics_questions /\
                 matches_topic (py := ascii_runtime) ascii_isspace
                               (lower (u "Ohm")) base = true /\
                 explanation q = explanation base.
Proof.
  assert (H0 : u "Ohm" <> []) by (intros E; vm_compute in E; discriminate E).
  assert (H : fallback_physics_questions (py := ascii_runtime) ascii_isspace 3
                                         (Some (u "Ohm"))
              = Some ohm_questions) by (vm_compute; reflexivity).
  assert (Hex : exists base, In base physics_questions /\
                  matches_topic (py := ascii_runtime) ascii_isspace
                                (lower (u "Ohm")) base = true).
  { exists (nth 0 ohm_questions (Build_quiz_question [] [] 0 [])).
    split; [vm_compute; tauto|vm_compute; reflexivity]. }
  split; [exact H0|]. split; [exact H|]. split; [exact Hex|].
  destruct (@fallback_questions_on_topic ascii_runtime ascii_isspace 3 (u "Ohm")
              ohm_questions H0 H) as [Hon _].
  intros q Hq. destruct (Hon Hex q Hq) as (base & Hb & Hm & _ & _ & He).
  exists base. split; [exact Hb|split; [exact Hm|exact He]].
Defined.

Lemma fallback_questions_distinct_witness :
  fallback_physics_questions (py := ascii_runtime) ascii_isspace 12 None
  = Some twelve_questions /\
  NoDup (map question twelve_questions).
Proof.
  assert (H : fallback_physics_questions (py := ascii_runtime) ascii_isspace 12 None
              = Some twelve_questions) by (vm_compute; reflexivity).
  split; [exact H|].
  apply (@fallback_questions_distinct ascii_runtime ascii_isspace 12 None
           twelve_questions H).
Defined.
